(** * Debt manager: yearly summary, payment-row lookup and cascade delete

    A shallow embedding of the computational core of [app.py]:

    - [get_debt_periods] and [calculate_yearly_summary] (the yearly
      target / shortfall / fine schedule of one debtor);
    - the scan that looks up the sheet row of a payment before an edit
      ([row_index_in_gsheet]) and the in-place update of that row;
    - the payment rows kept when a debtor is deleted ([pay_data_to_keep]).

    Conventions of the embedding.

    - Money amounts are pandas [float64] values in the program.  Here they
      are exact rationals ([Q]): the constants [0.25] and [0.15] are
      [1/4] and [15/100], and binary64 rounding error is abstracted away
      (the products of the worked examples are also evaluated in binary64,
      where they are exact).  Equality of amounts is [Qeq] ([==]).
    - A Python [str] is the list of its code points ([pystr]).
    - A [datetime.date] is a record of year, month and day, ordered
      lexicographically as Python orders dates.
    - [datetime.now().date()] is an explicit argument [now].
    - [pd.to_numeric(..., errors='coerce')] on a sheet cell is an
      argument [to_numeric : pystr -> option Q]; [None] stands for NaN. *)

From Stdlib Require Import ZArith QArith Qround Qabs Qminmax List Bool Lia Lqa.
From Stdlib Require Import NArith String Ascii Floats.SpecFloat.
Import ListNotations.

Local Open Scope Z_scope.

(* ================================================================== *)
(** * Python numbers *)

(** [x < y] on amounts, as a boolean. *)
Definition Qltb (x y : Q) : bool := negb (Qle_bool y x).

(** [max(0, x)]: Python's [max] returns its first argument unless a later
    one is strictly greater. *)
Definition py_max0 (x : Q) : Q := if Qltb 0 x then x else 0%Q.

(** Python's one-argument [round]: the nearest integer, a tie going to
    the even neighbour. *)
Definition py_round (x : Q) : Z :=
  let f := Qfloor x in
  let r := (x - inject_Z f)%Q in
  match (r ?= 1 # 2)%Q with
  | Lt => f
  | Gt => f + 1
  | Eq => if Z.even f then f else f + 1
  end.

(** [Series.sum()]: the sum of the selected amounts, [0] when none is
    selected. *)
Definition series_sum (l : list Q) : Q := fold_right Qplus 0%Q l.

(* ================================================================== *)
(** * Python dates *)

Record date : Set := mkdate { year : Z; month : Z; day : Z }.

Definition date_compare (a b : date) : comparison :=
  match year a ?= year b with
  | Eq => match month a ?= month b with
          | Eq => day a ?= day b
          | c => c
          end
  | c => c
  end.

(** [a <= b], [a >= b] and [a > b] on dates. *)
Definition date_leb (a b : date) : bool :=
  match date_compare a b with Gt => false | _ => true end.
Definition date_geb (a b : date) : bool := date_leb b a.
Definition date_gtb (a b : date) : bool :=
  match date_compare a b with Gt => true | _ => false end.

Definition date_le (a b : date) : Prop := date_compare a b <> Gt.
Definition date_lt (a b : date) : Prop := date_compare a b = Lt.

(** The proleptic Gregorian ordinal of a date ([date.toordinal]); used
    only to measure the length of a period in days. *)
Definition is_leap (y : Z) : bool :=
  (y mod 4 =? 0) && (negb (y mod 100 =? 0) || (y mod 400 =? 0)).

Definition days_before_year (y : Z) : Z :=
  let y1 := y - 1 in y1 * 365 + y1 / 4 - y1 / 100 + y1 / 400.

Definition days_in_month (y m : Z) : Z :=
  if m =? 2 then (if is_leap y then 29 else 28)
  else if (m =? 4) || (m =? 6) || (m =? 9) || (m =? 11) then 30
  else 31.

Fixpoint days_before_month_aux (y : Z) (k : nat) : Z :=
  match k with
  | O => 0
  | S k' => days_before_month_aux y k' + days_in_month y (Z.of_nat k)
  end.

Definition days_before_month (y m : Z) : Z :=
  days_before_month_aux y (Z.to_nat (m - 1)).

Definition toordinal (d : date) : Z :=
  days_before_year (year d) + days_before_month (year d) (month d) + day d.

(** Number of calendar days from [s] to [e], both included. *)
Definition span_days (p : date * date) : Z :=
  toordinal (snd p) - toordinal (fst p) + 1.

(* ================================================================== *)
(** * Python strings *)

Definition pystr : Set := list N.

Fixpoint pystr_eqb (a b : pystr) : bool :=
  match a, b with
  | [], [] => true
  | x :: a', y :: b' => (x =? y)%N && pystr_eqb a' b'
  | _, _ => false
  end.

(** An ASCII literal as a Python string. *)
Fixpoint py (s : string) : pystr :=
  match s with
  | EmptyString => []
  | String c s' => N_of_ascii c :: py s'
  end.

(** [str.isspace] on one code point: the characters [str.strip()]
    removes. *)
Definition is_space (c : N) : bool :=
  ((9 <=? c) && (c <=? 13) || (28 <=? c) && (c <=? 32)
   || (c =? 133) || (c =? 160) || (c =? 5760)
   || (8192 <=? c) && (c <=? 8202)
   || (c =? 8232) || (c =? 8233) || (c =? 8239) || (c =? 8287)
   || (c =? 12288))%N.

Fixpoint lstrip (s : pystr) : pystr :=
  match s with
  | c :: s' => if is_space c then lstrip s' else s
  | [] => []
  end.

Definition strip (s : pystr) : pystr := rev (lstrip (rev (lstrip s))).

(** [s.replace(chr(a), chr(b))] and [s.replace(chr(a), '')]. *)
Definition replace_char (a b : N) (s : pystr) : pystr :=
  map (fun c => if (c =? a)%N then b else c) s.
Definition remove_char (a : N) (s : pystr) : pystr :=
  filter (fun c => negb (c =? a)%N) s.

(** [_normalize_gsheet_col_name] on a string (every sheet cell is one):
    [col_name.strip().replace('\xa0', ' ').replace('\ufeff', '')]. *)
Definition _normalize_gsheet_col_name (col_name : pystr) : pystr :=
  remove_char 65279 (replace_char 160 32 (strip col_name)).

(** [list.index]: position of the first element equal to [x]. *)
Fixpoint index_of (x : pystr) (l : list pystr) : option nat :=
  match l with
  | [] => None
  | h :: t => if pystr_eqb h x then Some O
              else option_map S (index_of x t)
  end.

(* ================================================================== *)
(** * The debt and fine calculator *)

(** One loaded payment: the columns [ผู้จ่าย], [วันที่จ่าย_dt] (its
    [.dt.date]), [จำนวน] and [หมายเหตุ] of [payments_df]. *)
Record Payment : Set := mkPayment {
  payer : pystr;
  paid_on : date;
  amount : Q;
  note : pystr
}.

(** The [total_loan] argument before [pd.to_numeric]: a number, or
    anything coerced to NaN (non-numeric, missing). *)
Inductive RawLoan : Set :=
| Numeric (q : Q)
| NotANumber.

(** [pd.to_numeric(total_loan, errors='coerce')] followed by the NaN
    test. *)
Definition coerce_loan (l : RawLoan) : Q :=
  match l with Numeric q => q | NotANumber => 0%Q end.

(** The three texts of the column [สถานะค่าปรับ]. *)
Inductive FineStatus : Set :=
| HasFine (fine : Z)      (* "❌ มีค่าปรับ **{fine:,.0f}** บาท" *)
| FullyPaid               (* "✅ จ่ายครบแล้ว" *)
| NotYetDue.              (* "⏳ ยังไม่ครบกำหนดคิดค่าปรับ" *)

(** One element of [summary_data], with the values of the loop body
    before they are formatted: [year_no] and the two years make the
    label, [fine] is the loop's local [fine]. *)
Record SummaryRow : Set := mkRow {
  year_no : nat;
  start_date : date;
  end_date : date;
  yearly_target : Q;
  paid_in_period : Q;
  shortfall : Q;
  fine : Z;
  fine_status : FineStatus
}.

(** [get_debt_periods]: the argument is not used by the body, the
    contract start is the constant 5 April 2025. *)
Definition contract_start_date : date := mkdate 2025 4 5.

Definition get_debt_periods (start_year : Z) : list (date * date) :=
  map (fun i : nat =>
         (mkdate (year contract_start_date + Z.of_nat i) 4 5,
          mkdate (year contract_start_date + Z.of_nat i + 1) 3 5))
      (seq 0 4).

(** The boolean mask selecting the payments of one period. *)
Definition mask (debtor_name : pystr) (start_d end_d : date) (p : Payment)
  : bool :=
  pystr_eqb (payer p) debtor_name
  && date_geb (paid_on p) start_d
  && date_leb (paid_on p) end_d.

Definition paid_in (debtor_name : pystr) (payments_df : list Payment)
  (start_d end_d : date) : Q :=
  series_sum (map amount (filter (mask debtor_name start_d end_d) payments_df)).

(** The state carried round the loop over the periods. *)
Record Acc : Set := mkAcc {
  summary_data : list SummaryRow;
  total_fine_all_years : Z;
  total_paid_all_years : Q
}.

(** One iteration of the loop: the payments of the period are added to
    the total paid, the row is appended, and a fine is added to the
    total of the fines in the one branch that sets it. *)
Definition loop_body (debtor_name : pystr) (target : Q)
  (payments_df : list Payment) (current_date : date)
  (acc : Acc) (it : nat * (date * date)) : Acc :=
  let '(idx, (start_d, end_d)) := it in
  let paid := paid_in debtor_name payments_df start_d end_d in
  let total_paid := (total_paid_all_years acc + paid)%Q in
  let short := py_max0 (target - paid) in
  let fine_deadline := end_d in
  if date_gtb current_date fine_deadline then
    if Qltb 0 short then
      let f := py_round (short * (15 # 100)) in
      mkAcc (summary_data acc
             ++ [mkRow (S idx) start_d end_d target paid short f (HasFine f)])
            (total_fine_all_years acc + f) total_paid
    else
      mkAcc (summary_data acc
             ++ [mkRow (S idx) start_d end_d target paid short 0 FullyPaid])
            (total_fine_all_years acc) total_paid
  else
    mkAcc (summary_data acc
           ++ [mkRow (S idx) start_d end_d target paid short 0 NotYetDue])
          (total_fine_all_years acc) total_paid.

(** The row that one iteration appends (the same computation, without
    the totals). *)
Definition period_row (debtor_name : pystr) (target : Q)
  (payments_df : list Payment) (current_date : date)
  (idx : nat) (period : date * date) : SummaryRow :=
  let '(start_d, end_d) := period in
  let paid := paid_in debtor_name payments_df start_d end_d in
  let short := py_max0 (target - paid) in
  if date_gtb current_date end_d then
    if Qltb 0 short then
      let f := py_round (short * (15 # 100)) in
      mkRow (S idx) start_d end_d target paid short f (HasFine f)
    else
      mkRow (S idx) start_d end_d target paid short 0 FullyPaid
  else
    mkRow (S idx) start_d end_d target paid short 0 NotYetDue.

Definition enumerate {A : Type} (l : list A) : list (nat * A) :=
  combine (seq 0 (List.length l)) l.

Definition calculate_yearly_summary (debtor_name : pystr)
  (total_loan : RawLoan) (payments_df : list Payment) (now : date)
  : list SummaryRow * Q * Z * Q :=
  let total_loan := coerce_loan total_loan in
  let target := (total_loan * (25 # 100))%Q in
  let periods := get_debt_periods 2025 in
  let acc := fold_left (loop_body debtor_name target payments_df now)
               (enumerate periods) (mkAcc [] 0 0%Q) in
  let remaining_original_debt :=
    py_max0 (total_loan - total_paid_all_years acc) in
  let remaining_overall_debt_with_fine :=
    (remaining_original_debt + inject_Z (total_fine_all_years acc))%Q in
  (summary_data acc, total_paid_all_years acc, total_fine_all_years acc,
   remaining_overall_debt_with_fine).

(** The four components of the result. *)
Definition res_rows (r : list SummaryRow * Q * Z * Q) := fst (fst (fst r)).
Definition res_total_paid (r : list SummaryRow * Q * Z * Q) := snd (fst (fst r)).
Definition res_total_fine (r : list SummaryRow * Q * Z * Q) := snd (fst r).
Definition res_remaining (r : list SummaryRow * Q * Z * Q) := snd r.

(* ================================================================== *)
(** * The payment sheet *)

(** [pay_sheet.get_all_values()]: the rows of the sheet, the header row
    first, every cell a string. *)
Definition Row : Set := list pystr.
Definition Sheet : Set := list Row.

(** The column names of [PAYMENT_GSHEET_COLS], as code points. *)
Definition col_payer : pystr :=          (* "ผู้จ่าย" *)
  [3612; 3641; 3657; 3592; 3656; 3634; 3618]%N.
Definition col_date : pystr :=           (* "วันที่จ่าย" *)
  [3623; 3633; 3609; 3607; 3637; 3656; 3592; 3656; 3634; 3618]%N.
Definition col_amount : pystr :=         (* "จำนวน" *)
  [3592; 3635; 3609; 3623; 3609]%N.
Definition col_note : pystr :=           (* "หมายเหตุ" *)
  [3627; 3617; 3634; 3618; 3648; 3627; 3605; 3640]%N.
Definition PAYMENT_GSHEET_COLS : Row :=
  [col_payer; col_date; col_amount; col_note].

(** [strftime("%Y-%m-%d")]. *)
Definition digit (n : Z) : N := Z.to_N (48 + n mod 10).
Definition two_digits (n : Z) : pystr := [digit (n / 10); digit n].
Definition four_digits (n : Z) : pystr :=
  [digit (n / 1000); digit (n / 100); digit (n / 10); digit n].
Definition strftime_ymd (d : date) : pystr :=
  four_digits (year d) ++ [45%N] ++ two_digits (month d)
  ++ [45%N] ++ two_digits (day d).

(** [gsheet_row + [''] * (n - len(gsheet_row))]; a negative count
    repeats nothing. *)
Definition pad_row (gsheet_row : Row) (n : nat) : Row :=
  gsheet_row ++ repeat [] (n - List.length gsheet_row).

(** [gsheet_amount == row['จำนวน']]; NaN equals nothing. *)
Definition amount_eqb (gsheet_amount : option Q) (a : Q) : bool :=
  match gsheet_amount with
  | Some q => Qeq_bool q a
  | None => false
  end.

(** The condition of the [if] inside the scan, for one sheet row. *)
Definition row_matches (to_numeric : pystr -> option Q)
  (payer_idx date_idx amount_idx note_idx : nat)
  (target_date_str : pystr) (row : Payment) (gsheet_row : Row) : bool :=
  let gsheet_row_padded :=
    pad_row gsheet_row
      (Nat.max (Nat.max (Nat.max payer_idx date_idx) amount_idx) note_idx + 1) in
  let gsheet_amount :=
    to_numeric (_normalize_gsheet_col_name (nth amount_idx gsheet_row_padded []))
  in
  pystr_eqb (_normalize_gsheet_col_name (nth payer_idx gsheet_row_padded []))
            (payer row)
  && pystr_eqb (_normalize_gsheet_col_name (nth date_idx gsheet_row_padded []))
               target_date_str
  && amount_eqb gsheet_amount (amount row)
  && pystr_eqb (_normalize_gsheet_col_name (nth note_idx gsheet_row_padded []))
               (note row).

(** The [for idx_gsheet, gsheet_row in enumerate(...)] loop with its
    [break]; [-1] is the initial [row_index_in_gsheet]. *)
Fixpoint scan_rows (matches : Row -> bool) (idx_gsheet : nat)
  (rows : list Row) : Z :=
  match rows with
  | [] => -1
  | gsheet_row :: rest =>
      if matches gsheet_row then Z.of_nat idx_gsheet + 2
      else scan_rows matches (S idx_gsheet) rest
  end.

(** What the lookup of one in-memory payment ends with: [st.stop()]
    when a column is missing from the header, otherwise the value of
    [row_index_in_gsheet]. *)
Inductive Located : Set :=
| Halted
| RowIndex (row_index_in_gsheet : Z).

Definition locate_row (to_numeric : pystr -> option Q)
  (all_pay_values : Sheet) (row : Payment) : Located :=
  match all_pay_values with
  | [] => RowIndex (-1)
  | header :: data =>
      let headers := map _normalize_gsheet_col_name header in
      let target_date_str := strftime_ymd (paid_on row) in
      match index_of col_payer headers, index_of col_date headers,
            index_of col_amount headers, index_of col_note headers with
      | Some payer_idx, Some date_idx, Some amount_idx, Some note_idx =>
          RowIndex
            (scan_rows
               (row_matches to_numeric payer_idx date_idx amount_idx note_idx
                  target_date_str row)
               0 data)
      | _, _, _, _ => Halted
      end
  end.

(** [ws.update('A{n}:D{n}', [cells])]: the first four cells of sheet row
    [n] (the header is row 1) are overwritten; a row below the data is
    created. *)
Fixpoint set_nth (i : nat) (new_cells : Row) (s : Sheet) : Sheet :=
  match i, s with
  | O, old :: rest => (firstn 4 new_cells ++ skipn 4 old) :: rest
  | O, [] => [firstn 4 new_cells]
  | S i', old :: rest => old :: set_nth i' new_cells rest
  | S i', [] => [] :: set_nth i' new_cells []
  end.

Definition update_row (all_pay_values : Sheet) (sheet_row_index : Z)
  (new_cells : Row) : Sheet :=
  set_nth (Z.to_nat (sheet_row_index - 1)) new_cells all_pay_values.

(** The loop that builds [pay_data_to_keep] when a debtor is deleted:
    a row is dropped when its normalised payer cell is the deleted name;
    [ValueError] (no payer column) and [IndexError] (row too short) keep
    the row. *)
Definition keep_step (pay_headers : list pystr) (debtor_to_delete : pystr)
  (pay_data_to_keep : list Row) (row_data : Row) : list Row :=
  match index_of col_payer pay_headers with
  | None => pay_data_to_keep ++ [row_data]
  | Some payer_col_index =>
      match nth_error row_data payer_col_index with
      | None => pay_data_to_keep ++ [row_data]
      | Some c =>
          if negb (pystr_eqb (_normalize_gsheet_col_name c) debtor_to_delete)
          then pay_data_to_keep ++ [row_data]
          else pay_data_to_keep
      end
  end.

(** The content of the sheet [pay] after the delete handler: unchanged
    when it was empty, otherwise cleared and rewritten with
    [pay_data_to_keep]. *)
Definition delete_debtor_payments (all_pay_values : Sheet)
  (debtor_to_delete : pystr) : Sheet :=
  match all_pay_values with
  | [] => []
  | header :: data =>
      let pay_headers := map _normalize_gsheet_col_name header in
      fold_left (keep_step pay_headers debtor_to_delete) data [header]
  end.

(** The payer cell of a sheet row as the delete handler reads it, when
    the header has the payer column and the row is long enough. *)
Definition payer_cell (header : Row) (row_data : Row) : option pystr :=
  match index_of col_payer (map _normalize_gsheet_col_name header) with
  | None => None
  | Some i => nth_error row_data i
  end.

(** A sheet row is dropped by the delete handler. *)
Definition dropped (header : Row) (debtor_to_delete : pystr)
  (row_data : Row) : bool :=
  match payer_cell header row_data with
  | None => false
  | Some c => pystr_eqb (_normalize_gsheet_col_name c) debtor_to_delete
  end.

(** [pd.to_numeric] on the cells used in the examples below: an unsigned
    decimal numeral, with an optional fractional part.  Any other text is
    taken as NaN here; the theorems do not depend on this instance. *)
Definition is_digit (c : N) : bool := ((48 <=? c) && (c <=? 57))%N.

Fixpoint digits_value (acc : Z) (s : pystr) : option Z :=
  match s with
  | [] => Some acc
  | c :: s' => if is_digit c
               then digits_value (10 * acc + (Z.of_N c - 48)) s'
               else None
  end.

Fixpoint split_dot (s : pystr) : pystr * option pystr :=
  match s with
  | [] => ([], None)
  | c :: s' => if (c =? 46)%N then ([], Some s')
               else let '(a, b) := split_dot s' in (c :: a, b)
  end.

Definition to_numeric_plain (s : pystr) : option Q :=
  match split_dot s with
  | ([], _) => None
  | (ip, None) => option_map inject_Z (digits_value 0 ip)
  | (ip, Some fp) =>
      match digits_value 0 ip, digits_value 0 fp with
      | Some i, Some f =>
          Some (inject_Z i
                + inject_Z f / inject_Z (10 ^ Z.of_nat (List.length fp)))%Q
      | _, _ => None
      end
  end.

(** A date lies in one of the four periods. *)
Definition in_some_period (d : date) : bool :=
  existsb (fun pe => date_geb d (fst pe) && date_leb d (snd pe))
          (get_debt_periods 2025).

(** A payment is counted for a debtor in some period. *)
Definition counted (debtor_name : pystr) (p : Payment) : bool :=
  pystr_eqb (payer p) debtor_name && in_some_period (paid_on p).

(** Binary64 arithmetic, for the two products of the worked examples:
    [b64_mul] is the IEEE 754 product rounded to nearest even,
    [b64_0_15] the double written [0.15], [b64_value] the rational a
    finite double stands for. *)
Definition b64_mul (x y : spec_float) : spec_float := SFmul 53 1024 x y.
Definition b64_0_15 : spec_float := S754_finite false 5404319552844595 (-55).
Definition b64_of_pos (n : positive) : spec_float := S754_finite false n 0.
Definition b64_value (x : spec_float) : Q :=
  match x with
  | S754_finite s m e =>
      ((if s then -1 else 1) * inject_Z (Z.pos m) * Qpower 2 e)%Q
  | _ => 0%Q
  end.

(** [missing_cols] of [read_sheet_to_df]:
    [[col for col in required_cols if col not in headers]]; the function
    stops when the list is not empty. *)
Definition missing_cols (required_cols headers : list pystr) : list pystr :=
  filter (fun col => negb (existsb (fun h => pystr_eqb h col) headers))
         required_cols.

(** A string neither starts nor ends with a character that [strip]
    removes. *)
Definition no_edge_space (s : pystr) : Prop :=
  (forall c t, s = c :: t -> is_space c = false)
  /\ (forall c t, s = t ++ [c] -> is_space c = false).

(* ================================================================== *)
(** * The debtor table *)

(** One row of [customers_df]: the columns [ลำดับที่], [ชื่อ] and
    [รวมเงินกู้ทั้งหมด]. *)
Record Customer : Set := mkCustomer {
  seq_no : Z;
  cust_name : pystr;
  cust_loan : Q
}.

(** [customers_df['ชื่อ'].tolist()]. *)
Definition debtor_names (customers_df : list Customer) : list pystr :=
  map cust_name customers_df.

(** [customers_df['ลำดับที่'].max()] of a table that is not empty. *)
Definition max_seq_no (first : Customer) (others : list Customer) : Z :=
  fold_left Z.max (map seq_no others) (seq_no first).

(** The handler of the button that adds a debtor: a name already in
    [debtor_names] gives a warning and no write ([None]); otherwise the
    table written back has one more row at its end, numbered one above
    the largest number (1 in an empty table). *)
Definition add_debtor (customers_df : list Customer) (new_name : pystr)
  (new_total : Q) : option (list Customer) :=
  if existsb (fun n => pystr_eqb n new_name) (debtor_names customers_df)
  then None
  else
    let new_id := match customers_df with
                  | [] => 1
                  | c :: cs => max_seq_no c cs + 1
                  end in
    Some (customers_df ++ [mkCustomer new_id new_name new_total]).

(** The handler that saves an edited loan:
    [customers_df.loc[customers_df['ชื่อ'] == name, loan] = new_loan]. *)
Definition edit_loan (customers_df : list Customer)
  (debtor_to_edit_loan : pystr) (new_loan_amount : Q) : list Customer :=
  map (fun c => if pystr_eqb (cust_name c) debtor_to_edit_loan
                then mkCustomer (seq_no c) (cust_name c) new_loan_amount
                else c)
      customers_df.

(** The debtor rows kept by the delete handler:
    [customers_df[customers_df['ชื่อ'] != debtor_to_delete]]. *)
Definition delete_debtor_row (customers_df : list Customer)
  (debtor_to_delete : pystr) : list Customer :=
  filter (fun c => negb (pystr_eqb (cust_name c) debtor_to_delete))
         customers_df.

(** The loan shown for a selected debtor:
    [customers_df[customers_df['ชื่อ'] == name][loan].iloc[0]], guarded
    by the test that the selection is not empty. *)
Definition loan_of (customers_df : list Customer) (name : pystr)
  : option Q :=
  match filter (fun c => pystr_eqb (cust_name c) name) customers_df with
  | [] => None
  | c :: _ => Some (cust_loan c)
  end.

(* ================================================================== *)
(** * Numbers: comparison, [max] and [round] *)

Lemma Qltb_true (x y : Q) : Qltb x y = true <-> (x < y)%Q.
Proof.
  unfold Qltb. rewrite negb_true_iff, <- not_true_iff_false, Qle_bool_iff.
  split; [apply Qnot_le_lt | apply Qlt_not_le].
Qed.

Lemma Qltb_false (x y : Q) : Qltb x y = false <-> (y <= x)%Q.
Proof.
  unfold Qltb. rewrite negb_false_iff, Qle_bool_iff. tauto.
Qed.

Lemma py_max0_nonneg (x : Q) : (0 <= py_max0 x)%Q.
Proof.
  unfold py_max0. destruct (Qltb 0 x) eqn:E.
  - apply Qltb_true in E. apply Qlt_le_weak, E.
  - apply Qle_refl.
Qed.

Lemma py_max0_pos (x : Q) : (0 < x)%Q -> py_max0 x = x.
Proof.
  intros H. unfold py_max0. apply Qltb_true in H. now rewrite H.
Qed.

Lemma py_max0_nonpos (x : Q) : (x <= 0)%Q -> py_max0 x = 0%Q.
Proof.
  intros H. unfold py_max0. apply Qltb_false in H. now rewrite H.
Qed.

Lemma py_max0_is_max (x : Q) : (py_max0 x == Qmax 0 x)%Q.
Proof.
  destruct (Qlt_le_dec 0 x) as [H|H].
  - rewrite (py_max0_pos _ H). symmetry.
    apply Q.max_r, Qlt_le_weak, H.
  - rewrite (py_max0_nonpos _ H). symmetry.
    apply Q.max_l, H.
Qed.

Lemma Qfloor_frac (x : Q) :
  (0 <= x - inject_Z (Qfloor x))%Q /\ (x - inject_Z (Qfloor x) < 1)%Q.
Proof.
  pose proof (Qfloor_le x) as H1. pose proof (Qlt_floor x) as H2.
  rewrite inject_Z_plus in H2. change (inject_Z 1) with 1%Q in H2. split; lra.
Qed.

(** [py_round] returns a nearest integer, and the even one at a tie. *)
Lemma py_round_nearest (x : Q) :
  (Qabs (x - inject_Z (py_round x)) <= 1 # 2)%Q.
Proof.
  unfold py_round. destruct (Qfloor_frac x) as [H0 H1].
  set (f := Qfloor x) in *.
  destruct (Qcompare_spec (x - inject_Z f) (1 # 2)) as [E|E|E].
  - destruct (Z.even f).
    + rewrite E. discriminate.
    + apply Qabs_Qle_condition. rewrite inject_Z_plus.
      change (inject_Z 1) with 1%Q. split; lra.
  - apply Qabs_Qle_condition. split; lra.
  - apply Qabs_Qle_condition. rewrite inject_Z_plus.
    change (inject_Z 1) with 1%Q. split; lra.
Qed.

Lemma py_round_tie_even (x : Q) :
  (Qabs (x - inject_Z (py_round x)) == 1 # 2)%Q ->
  Z.even (py_round x) = true.
Proof.
  unfold py_round. destruct (Qfloor_frac x) as [H0 H1].
  set (f := Qfloor x) in *.
  destruct (Qcompare_spec (x - inject_Z f) (1 # 2)) as [E|E|E]; intros T.
  - destruct (Z.even f) eqn:Ev; [exact Ev|].
    cbv iota. rewrite Z.add_1_r, Z.even_succ, <- Z.negb_even, Ev. reflexivity.
  - exfalso. rewrite Qabs_pos in T by exact H0. lra.
  - exfalso. rewrite inject_Z_plus in T. change (inject_Z 1) with 1%Q in T.
    rewrite Qabs_neg in T by lra. lra.
Qed.

(* ================================================================== *)
(** * Dates and strings: the boolean tests decide the orders *)

Lemma date_le_iff (a b : date) :
  date_le a b <->
  year a < year b \/
  (year a = year b /\
   (month a < month b \/ (month a = month b /\ day a <= day b))).
Proof.
  unfold date_le, date_compare.
  destruct (Z.compare_spec (year a) (year b));
    destruct (Z.compare_spec (month a) (month b));
    destruct (Z.compare_spec (day a) (day b));
    split; intros; try lia; try congruence.
Qed.

Lemma date_lt_iff (a b : date) :
  date_lt a b <->
  year a < year b \/
  (year a = year b /\
   (month a < month b \/ (month a = month b /\ day a < day b))).
Proof.
  unfold date_lt, date_compare.
  destruct (Z.compare_spec (year a) (year b));
    destruct (Z.compare_spec (month a) (month b));
    destruct (Z.compare_spec (day a) (day b));
    split; intros; try lia; try congruence.
Qed.

Lemma date_leb_le (a b : date) : date_leb a b = true <-> date_le a b.
Proof.
  unfold date_leb, date_le.
  destruct (date_compare a b); split; congruence.
Qed.

Lemma date_gtb_lt (a b : date) : date_gtb a b = true <-> date_lt b a.
Proof.
  rewrite date_lt_iff. unfold date_gtb, date_compare.
  destruct (Z.compare_spec (year a) (year b));
    destruct (Z.compare_spec (month a) (month b));
    destruct (Z.compare_spec (day a) (day b));
    split; intros; try lia; try congruence.
Qed.

Lemma date_le_refl (a : date) : date_le a a.
Proof. apply date_le_iff. lia. Qed.

Lemma date_lt_not_le (a b : date) : date_lt a b -> ~ date_le b a.
Proof. rewrite date_lt_iff, date_le_iff. lia. Qed.

Lemma pystr_eqb_eq (a b : pystr) : pystr_eqb a b = true <-> a = b.
Proof.
  revert b. induction a as [|x a IH]; intros [|y b]; simpl;
    try (split; congruence).
  rewrite andb_true_iff, N.eqb_eq, IH. split.
  - intros [-> ->]. reflexivity.
  - intros E. injection E as -> ->. auto.
Qed.

Lemma pystr_eqb_refl (a : pystr) : pystr_eqb a a = true.
Proof. now apply pystr_eqb_eq. Qed.

Lemma pystr_eqb_neq (a b : pystr) : pystr_eqb a b = false <-> a <> b.
Proof.
  rewrite <- pystr_eqb_eq. destruct (pystr_eqb a b); split; congruence.
Qed.

(* ================================================================== *)
(** * The loop of [calculate_yearly_summary] *)

(** The mask is the conjunction the source writes. *)
Lemma mask_iff (name : pystr) (s e : date) (p : Payment) :
  mask name s e p = true <->
  payer p = name /\ date_le s (paid_on p) /\ date_le (paid_on p) e.
Proof.
  unfold mask, date_geb.
  rewrite !andb_true_iff, pystr_eqb_eq, !date_leb_le. tauto.
Qed.

(** One iteration appends the row of the period and adds its fine and
    its payments to the totals. *)
Lemma loop_body_row (name : pystr) (t : Q) (ps : list Payment) (now : date)
  (acc : Acc) (i : nat) (pe : date * date) :
  loop_body name t ps now acc (i, pe)
  = mkAcc (summary_data acc ++ [period_row name t ps now i pe])
          (total_fine_all_years acc + fine (period_row name t ps now i pe))
          (total_paid_all_years acc
           + paid_in_period (period_row name t ps now i pe))%Q.
Proof.
  destruct pe as [s e]. unfold loop_body, period_row.
  destruct (date_gtb now e); [destruct (Qltb 0 _)|]; simpl;
    rewrite ?Z.add_0_r; reflexivity.
Qed.

(** The summary is the list of the four rows, one per period in order,
    and the totals are the running sums of the loop. *)
Lemma summary_unfold (name : pystr) (L : RawLoan) (ps : list Payment)
  (now : date) :
  let t := (coerce_loan L * (25 # 100))%Q in
  let row i y :=
    period_row name t ps now i (mkdate y 4 5, mkdate (y + 1) 3 5) in
  let r0 := row 0%nat 2025 in
  let r1 := row 1%nat 2026 in
  let r2 := row 2%nat 2027 in
  let r3 := row 3%nat 2028 in
  let res := calculate_yearly_summary name L ps now in
  res_rows res = [r0; r1; r2; r3]
  /\ res_total_fine res = 0 + fine r0 + fine r1 + fine r2 + fine r3
  /\ res_total_paid res =
     (0 + paid_in_period r0 + paid_in_period r1
      + paid_in_period r2 + paid_in_period r3)%Q
  /\ res_remaining res =
     (py_max0 (coerce_loan L - res_total_paid res)
      + inject_Z (res_total_fine res))%Q.
Proof.
  cbv zeta. unfold calculate_yearly_summary.
  unfold enumerate, get_debt_periods.
  cbn [map seq combine List.length fold_left].
  rewrite !loop_body_row. repeat split.
Qed.

(** Fields of the row of one period. *)
Lemma period_row_fields (name : pystr) (t : Q) (ps : list Payment)
  (now : date) (i : nat) (s e : date) :
  let r := period_row name t ps now i (s, e) in
  start_date r = s /\ end_date r = e /\ yearly_target r = t
  /\ paid_in_period r = paid_in name ps s e
  /\ shortfall r = py_max0 (t - paid_in name ps s e)
  /\ year_no r = S i.
Proof.
  unfold period_row.
  destruct (date_gtb now e); [destruct (Qltb 0 _)|]; simpl; repeat split.
Qed.

(** The fine policy on the row of one period. *)
Lemma period_row_policy (name : pystr) (t : Q) (ps : list Payment)
  (now : date) (i : nat) (s e : date) :
  let r := period_row name t ps now i (s, e) in
  (date_lt (end_date r) now -> (0 < shortfall r)%Q ->
   fine r = py_round (shortfall r * (15 # 100))
   /\ fine_status r = HasFine (fine r))
  /\ (date_lt (end_date r) now -> (shortfall r == 0)%Q ->
      fine r = 0 /\ fine_status r = FullyPaid)
  /\ (~ date_lt (end_date r) now ->
      fine r = 0 /\ fine_status r = NotYetDue).
Proof.
  unfold period_row.
  destruct (date_gtb now e) eqn:G.
  - apply date_gtb_lt in G.
    destruct (Qltb 0 (py_max0 (t - paid_in name ps s e))) eqn:P; simpl.
    + apply Qltb_true in P. split; [|split].
      * intros _ _. split; reflexivity.
      * intros _ Z0. rewrite Z0 in P. now apply Qlt_irrefl in P.
      * intros N. contradiction.
    + apply Qltb_false in P. split; [|split].
      * intros _ Pos. exfalso. apply (Qlt_irrefl 0).
        eapply Qlt_le_trans; eauto.
      * intros _ _. split; reflexivity.
      * intros N. contradiction.
  - simpl. assert (N : ~ date_lt e now).
    { intros H. apply date_gtb_lt in H. congruence. }
    split; [|split].
    + intros H. contradiction.
    + intros H. contradiction.
    + intros _. split; reflexivity.
Qed.

Lemma period_row_dates (name : pystr) (t : Q) (ps : list Payment)
  (now : date) (i : nat) (pe : date * date) :
  (start_date (period_row name t ps now i pe),
   end_date (period_row name t ps now i pe)) = pe.
Proof.
  destruct pe as [s e].
  destruct (period_row_fields name t ps now i s e) as (-> & -> & _).
  reflexivity.
Qed.

(** The loop reads the payments only through the four per-period sums. *)
Lemma fold_loop_ext (name : pystr) (t : Q) (ps ps' : list Payment)
  (now : date) (l : list (nat * (date * date))) :
  (forall i s e, In (i, (s, e)) l ->
                 paid_in name ps s e = paid_in name ps' s e) ->
  forall acc,
    fold_left (loop_body name t ps now) l acc
    = fold_left (loop_body name t ps' now) l acc.
Proof.
  induction l as [|[i [s e]] l IH]; intros H acc; [reflexivity|].
  simpl. rewrite IH by (intros; eapply H; right; eauto).
  f_equal. unfold loop_body.
  rewrite (H i s e) by (left; reflexivity). reflexivity.
Qed.

Lemma summary_ext (name : pystr) (L : RawLoan) (ps ps' : list Payment)
  (now : date) :
  (forall s e, In (s, e) (get_debt_periods 2025) ->
               paid_in name ps s e = paid_in name ps' s e) ->
  calculate_yearly_summary name L ps now
  = calculate_yearly_summary name L ps' now.
Proof.
  intros H. unfold calculate_yearly_summary.
  rewrite (fold_loop_ext name _ ps ps' now); [reflexivity|].
  intros i s e Hin. apply H.
  unfold enumerate in Hin. eapply in_combine_r, Hin.
Qed.

(** A debtor without payments pays nothing in any period. *)
Lemma paid_in_none (name : pystr) (ps : list Payment) (s e : date) :
  (forall p, In p ps -> payer p <> name) ->
  paid_in name ps s e = 0%Q.
Proof.
  intros H. unfold paid_in.
  replace (filter (mask name s e) ps) with (@nil Payment); [reflexivity|].
  symmetry. induction ps as [|p ps IH]; [reflexivity|]. simpl.
  assert (M : mask name s e p = false).
  { unfold mask.
    assert (E : pystr_eqb (payer p) name = false)
      by (apply pystr_eqb_neq, H; left; reflexivity).
    now rewrite E. }
  rewrite M. apply IH. intros q Hq. apply H. now right.
Qed.

(** The fine policy holds on every row of the summary. *)
Lemma summary_row_policy (name : pystr) (L : RawLoan) (ps : list Payment)
  (now : date) (r : SummaryRow) :
  In r (res_rows (calculate_yearly_summary name L ps now)) ->
  (date_lt (end_date r) now -> (0 < shortfall r)%Q ->
   fine r = py_round (shortfall r * (15 # 100))
   /\ fine_status r = HasFine (fine r))
  /\ (date_lt (end_date r) now -> (shortfall r == 0)%Q ->
      fine r = 0 /\ fine_status r = FullyPaid)
  /\ (~ date_lt (end_date r) now ->
      fine r = 0 /\ fine_status r = NotYetDue).
Proof.
  destruct (summary_unfold name L ps now) as (Hr & _).
  cbv zeta in Hr. rewrite Hr.
  intros [<-|[<-|[<-|[<-|[]]]]]; apply period_row_policy.
Qed.

(* ================================================================== *)
(** * The claims on the calculator *)







Lemma paid_in_cons (name : pystr) (p : Payment) (ps : list Payment)
  (s e : date) :
  paid_in name (p :: ps) s e
  = if mask name s e p then (amount p + paid_in name ps s e)%Q
    else paid_in name ps s e.
Proof.
  unfold paid_in. simpl. destruct (mask name s e p); reflexivity.
Qed.

Lemma paid_in_skip (name : pystr) (p : Payment) (ps1 ps2 : list Payment)
  (s e : date) :
  mask name s e p = false ->
  paid_in name (ps1 ++ p :: ps2) s e = paid_in name (ps1 ++ ps2) s e.
Proof.
  intros M. unfold paid_in. rewrite !filter_app. simpl. now rewrite M.
Qed.

Lemma in_some_period_false (name : pystr) (p : Payment) (s e : date) :
  in_some_period (paid_on p) = false ->
  In (s, e) (get_debt_periods 2025) ->
  mask name s e p = false.
Proof.
  intros F Hin. destruct (mask name s e p) eqn:M; [|reflexivity].
  rewrite <- F. symmetry. apply existsb_exists. exists (s, e).
  split; [exact Hin|]. unfold mask in M. simpl.
  apply andb_true_iff in M as [M1 M3]. apply andb_true_iff in M1 as [_ M2].
  now rewrite M2, M3.
Qed.

(** Turns the boolean date tests of the context into arithmetic. *)
Ltac date_facts :=
  repeat match goal with
    | H : _ && _ = true |- _ => apply andb_true_iff in H; destruct H
    | H : date_geb _ _ = true |- _ =>
        unfold date_geb in H; apply date_leb_le, date_le_iff in H
    | H : date_leb _ _ = true |- _ => apply date_leb_le, date_le_iff in H
    | H : date_le _ _ |- _ => apply date_le_iff in H
    | H : date_lt _ _ |- _ => apply date_lt_iff in H
    end;
  simpl in *.

(** The four periods do not overlap: a payment is in at most one. *)
Lemma total_counted (name : pystr) (ps : list Payment) :
  (0 + paid_in name ps (mkdate 2025 4 5) (mkdate (2025 + 1) 3 5)
   + paid_in name ps (mkdate 2026 4 5) (mkdate (2026 + 1) 3 5)
   + paid_in name ps (mkdate 2027 4 5) (mkdate (2027 + 1) 3 5)
   + paid_in name ps (mkdate 2028 4 5) (mkdate (2028 + 1) 3 5)
   == series_sum (map amount (filter (counted name) ps)))%Q.
Proof.
  induction ps as [|p ps IH].
  - vm_compute. reflexivity.
  - rewrite !paid_in_cons. simpl filter.
    unfold counted, in_some_period, mask. simpl existsb.
    destruct (pystr_eqb (payer p) name); simpl andb.
    + destruct (date_geb (paid_on p) (mkdate 2025 4 5)
                && date_leb (paid_on p) (mkdate 2026 3 5)) eqn:E0;
        destruct (date_geb (paid_on p) (mkdate 2026 4 5)
                  && date_leb (paid_on p) (mkdate 2027 3 5)) eqn:E1;
        destruct (date_geb (paid_on p) (mkdate 2027 4 5)
                  && date_leb (paid_on p) (mkdate 2028 3 5)) eqn:E2;
        destruct (date_geb (paid_on p) (mkdate 2028 4 5)
                  && date_leb (paid_on p) (mkdate 2029 3 5)) eqn:E3;
        simpl orb; cbv iota;
        try (exfalso; date_facts; lia);
        cbn [map series_sum fold_right];
        try rewrite <- IH; try ring.
    + exact IH.
Qed.





Lemma series_sum_nonneg (l : list Q) :
  (forall a, In a l -> (0 <= a)%Q) -> (0 <= series_sum l)%Q.
Proof.
  induction l as [|a l IH]; intros H; simpl.
  - apply Qle_refl.
  - assert (0 <= a)%Q by (apply H; now left).
    assert (0 <= series_sum l)%Q by (apply IH; intros; apply H; now right).
    lra.
Qed.

Lemma paid_in_nonneg (name : pystr) (ps : list Payment) (s e : date) :
  (forall p, In p ps -> (0 <= amount p)%Q) ->
  (0 <= paid_in name ps s e)%Q.
Proof.
  intros H. apply series_sum_nonneg. intros a Ha.
  apply in_map_iff in Ha as (p & <- & Hp).
  apply filter_In in Hp as [Hp _]. auto.
Qed.

(** With a target that is not positive and payments that are not
    negative, the row of a period has no shortfall and no fine. *)
Lemma period_row_no_fine (name : pystr) (t : Q) (ps : list Payment)
  (now : date) (i : nat) (s e : date) :
  (t <= 0)%Q -> (forall p, In p ps -> (0 <= amount p)%Q) ->
  let r := period_row name t ps now i (s, e) in
  shortfall r = 0%Q /\ fine r = 0.
Proof.
  intros Ht Hp. pose proof (paid_in_nonneg name ps s e Hp) as Hn.
  assert (Z0 : py_max0 (t - paid_in name ps s e) = 0%Q)
    by (apply py_max0_nonpos; lra).
  unfold period_row. rewrite Z0.
  destruct (date_gtb now e); simpl; auto.
Qed.






(** C5 as stated fails: the first period, 5 April 2025 to 5 March 2026,
    has 335 days, both ends included, so the periods do not each span a
    year; 20 March 2026 lies between the first and the second period,
    in neither. *)
Lemma C5_period_is_not_a_year :
  In (mkdate 2025 4 5, mkdate 2026 3 5) (get_debt_periods 2025)
  /\ span_days (mkdate 2025 4 5, mkdate 2026 3 5) = 335
  /\ in_some_period (mkdate 2026 3 20) = false
  /\ ~ (forall p, In p (get_debt_periods 2025) -> 365 <= span_days p).
Proof.
  split; [left; reflexivity|]. split; [reflexivity|].
  split; [reflexivity|].
  intros H. specialize (H (mkdate 2025 4 5, mkdate 2026 3 5)).
  assert (Hin : In (mkdate 2025 4 5, mkdate 2026 3 5) (get_debt_periods 2025))
    by (left; reflexivity).
  apply H in Hin. vm_compute in Hin. apply Hin. reflexivity.
Qed.

(** C5, amended. [get_debt_periods] returns exactly four periods,
    whatever its argument: period [i] starts on 5 April of year
    [2025 + i] and ends on 5 March of year [2025 + i + 1].  Each period
    thus covers eleven months (335 or 336 days with both ends), and the
    next one starts a month after it ends. *)
Theorem C5_debt_periods (start_year : Z) :
  let periods := get_debt_periods start_year in
  List.length periods = 4%nat
  /\ (forall i, (i < 4)%nat ->
        nth_error periods i
        = Some (mkdate (2025 + Z.of_nat i) 4 5,
                mkdate (2025 + Z.of_nat i + 1) 3 5))
  /\ (forall p, In p periods -> span_days p = 335 \/ span_days p = 336)
  /\ (forall i p q, nth_error periods i = Some p ->
        nth_error periods (S i) = Some q ->
        toordinal (fst q) - toordinal (snd p) = 31).
Proof.
  split; [reflexivity|]. split; [|split].
  - intros i Hi.
    destruct i as [|[|[|[|i]]]]; try reflexivity. lia.
  - intros p [<-|[<-|[<-|[<-|[]]]]]; vm_compute; auto.
  - intros i p q.
    destruct i as [|[|[|[|i]]]]; simpl; intros Hp Hq;
      try discriminate;
      try (injection Hp as <-; injection Hq as <-; reflexivity).
Qed.

Lemma C5_debt_periods_witness :
  nth_error (get_debt_periods 1999) 2
  = Some (mkdate 2027 4 5, mkdate 2028 3 5)
  /\ span_days (mkdate 2027 4 5, mkdate 2028 3 5) = 336.
Proof.
  split.
  - refine (proj1 (proj2 (C5_debt_periods 1999)) 2%nat _). lia.
  - reflexivity.
Defined.

(* ================================================================== *)
(** * The scan for the sheet row of a payment *)

Lemma nth_pad_row (r : Row) (n k : nat) :
  nth k (pad_row r n) [] = nth k r [].
Proof.
  unfold pad_row. destruct (Nat.lt_ge_cases k (List.length r)) as [H|H].
  - now rewrite app_nth1.
  - rewrite app_nth2 by exact H. rewrite (nth_overflow r) by exact H.
    destruct (Nat.lt_ge_cases (k - List.length r)
                (List.length (repeat (@nil N) (n - List.length r))))
      as [H'|H'].
    + eapply (nth_In _ []) in H'. now apply repeat_spec in H'.
    + now apply nth_overflow.
Qed.

(** What a match is: each of the four cells of the sheet row (the empty
    string where the row is too short), once normalised, is the value of
    the in-memory payment - the payer, the date written [YYYY-MM-DD],
    the amount as a number, the note. *)
Lemma row_matches_iff (to_numeric : pystr -> option Q)
  (pi di ai ni : nat) (row : Payment) (r : Row) :
  row_matches to_numeric pi di ai ni (strftime_ymd (paid_on row)) row r = true
  <->
  _normalize_gsheet_col_name (nth pi r []) = payer row
  /\ _normalize_gsheet_col_name (nth di r []) = strftime_ymd (paid_on row)
  /\ (exists q, to_numeric (_normalize_gsheet_col_name (nth ai r [])) = Some q
                /\ (q == amount row)%Q)
  /\ _normalize_gsheet_col_name (nth ni r []) = note row.
Proof.
  unfold row_matches. cbv zeta. rewrite !nth_pad_row.
  rewrite !andb_true_iff, !pystr_eqb_eq.
  assert (A : amount_eqb
                (to_numeric (_normalize_gsheet_col_name (nth ai r [])))
                (amount row) = true
              <-> exists q,
                to_numeric (_normalize_gsheet_col_name (nth ai r [])) = Some q
                /\ (q == amount row)%Q).
  { unfold amount_eqb.
    destruct (to_numeric (_normalize_gsheet_col_name (nth ai r []))) as [q|].
    - rewrite Qeq_bool_iff. split.
      + intros H. exists q. auto.
      + intros (q' & E & H). injection E as ->. exact H.
    - split; [discriminate|]. intros (q' & E & _). discriminate. }
  rewrite A. tauto.
Qed.

Lemma scan_rows_range (m : Row -> bool) (rows : list Row) (k : nat) :
  scan_rows m k rows = -1
  \/ Z.of_nat k + 2 <= scan_rows m k rows
     < Z.of_nat k + 2 + Z.of_nat (List.length rows).
Proof.
  revert k. induction rows as [|r rows IH]; intros k; simpl; [now left|].
  destruct (m r).
  - right. lia.
  - destruct (IH (S k)) as [H|H]; [now left|right]. lia.
Qed.

Lemma scan_rows_none (m : Row -> bool) (rows : list Row) (k : nat) :
  scan_rows m k rows = -1 <-> forall r, In r rows -> m r = false.
Proof.
  revert k. induction rows as [|r rows IH]; intros k; simpl.
  - split; [intros _ ? [] | reflexivity].
  - destruct (m r) eqn:E.
    + split; [lia|]. intros H. specialize (H r (or_introl eq_refl)).
      congruence.
    + rewrite IH. split.
      * intros H r' [<-|Hin]; auto.
      * intros H r' Hin. apply H. now right.
Qed.

Lemma scan_rows_first (m : Row -> bool) (rows : list Row) (k i : nat) :
  scan_rows m k rows = Z.of_nat (k + i) + 2 <->
  exists r, nth_error rows i = Some r /\ m r = true
            /\ forall j r', (j < i)%nat -> nth_error rows j = Some r' ->
                            m r' = false.
Proof.
  revert k i. induction rows as [|r rows IH]; intros k i; simpl.
  - split; [lia|]. intros (r & E & _). destruct i; discriminate.
  - destruct (m r) eqn:E.
    + split.
      * intros H. assert (i = 0%nat) by lia. subst i.
        exists r. repeat split; auto. intros j r' Hj. lia.
      * intros (r0 & Hn & Hm & Hfirst). destruct i as [|i].
        -- f_equal. lia.
        -- specialize (Hfirst 0%nat r (Nat.lt_0_succ i) eq_refl).
           congruence.
    + destruct i as [|i].
      * split.
        -- intros H. destruct (scan_rows_range m rows (S k)); lia.
        -- intros (r0 & Hn & Hm & _). simpl in Hn. congruence.
      * replace (k + S i)%nat with (S k + i)%nat by lia.
        rewrite IH. split.
        -- intros (r0 & Hn & Hm & Hfirst). exists r0.
           repeat split; auto. intros [|j] r' Hj Hn'; simpl in Hn'.
           ++ congruence.
           ++ eapply Hfirst; [|eassumption]. lia.
        -- intros (r0 & Hn & Hm & Hfirst). exists r0.
           repeat split; auto. intros j r' Hj Hn'.
           apply (Hfirst (S j) r'); [lia | exact Hn'].
Qed.

Lemma set_nth_other (new : Row) (s : Sheet) (i j : nat) :
  j <> i -> (i < List.length s)%nat ->
  nth_error (set_nth i new s) j = nth_error s j.
Proof.
  revert i j. induction s as [|old s IH]; intros i j Hne Hlt; simpl in Hlt.
  - lia.
  - destruct i as [|i]; destruct j as [|j]; simpl; try reflexivity.
    + congruence.
    + apply IH; lia.
Qed.

Lemma set_nth_same (new : Row) (s : Sheet) (i : nat) (old : Row) :
  nth_error s i = Some old ->
  nth_error (set_nth i new s) i = Some (firstn 4 new ++ skipn 4 old).
Proof.
  revert i. induction s as [|o s IH]; intros [|i] H; simpl in *;
    try discriminate.
  - now injection H as ->.
  - now apply IH.
Qed.




(* ================================================================== *)
(** * The payment rows kept when a debtor is deleted *)

Lemma keep_step_dropped (header : Row) (name : pystr) (acc : list Row)
  (r : Row) :
  keep_step (map _normalize_gsheet_col_name header) name acc r
  = if dropped header name r then acc else acc ++ [r].
Proof.
  unfold keep_step, dropped, payer_cell.
  destruct (index_of col_payer (map _normalize_gsheet_col_name header))
    as [i|]; [|reflexivity].
  destruct (nth_error r i) as [c|]; [|reflexivity].
  destruct (pystr_eqb (_normalize_gsheet_col_name c) name); reflexivity.
Qed.

Lemma keep_loop_filter (header : Row) (name : pystr) (data acc : list Row) :
  fold_left (keep_step (map _normalize_gsheet_col_name header) name) data acc
  = acc ++ filter (fun r => negb (dropped header name r)) data.
Proof.
  revert acc. induction data as [|r data IH]; intros acc; simpl.
  - now rewrite app_nil_r.
  - rewrite IH, keep_step_dropped.
    destruct (dropped header name r); simpl; [reflexivity|].
    now rewrite <- app_assoc.
Qed.




(* ================================================================== *)
(** * Further properties of the calculator *)

Lemma Some_eq_inv {A : Type} (a b : A) : Some a = Some b -> a = b.
Proof. congruence. Qed.

Lemma summary_rows_cases (name : pystr) (L : RawLoan) (ps : list Payment)
  (now : date) (r : SummaryRow) :
  In r (res_rows (calculate_yearly_summary name L ps now)) ->
  exists i s e,
    In (s, e) (get_debt_periods 2025)
    /\ r = period_row name (coerce_loan L * (25 # 100)) ps now i (s, e).
Proof.
  destruct (summary_unfold name L ps now) as (Hr & _).
  cbv zeta in Hr. rewrite Hr.
  intros [<-|[<-|[<-|[<-|[]]]]]; eexists _, _, _;
    (split; [|reflexivity]); simpl; auto.
Qed.

Lemma period_row_cons_other (name : pystr) (t : Q) (p : Payment)
  (ps : list Payment) (now : date) (i : nat) (s e : date) :
  mask name s e p = false ->
  period_row name t (p :: ps) now i (s, e)
  = period_row name t ps now i (s, e).
Proof.
  intros M. unfold period_row. now rewrite paid_in_cons, M.
Qed.

Lemma filter_payer_mask (name : pystr) (s e : date) (ps : list Payment) :
  filter (mask name s e) (filter (fun p => pystr_eqb (payer p) name) ps)
  = filter (mask name s e) ps.
Proof.
  induction ps as [|p ps IH]; [reflexivity|]. simpl.
  destruct (pystr_eqb (payer p) name) eqn:E; simpl.
  - now rewrite IH.
  - unfold mask at 2. rewrite E. simpl. exact IH.
Qed.

(** The payments of other payers play no part: the summary of a debtor
    is the summary computed from that debtor's payments alone. *)
Theorem other_payers_do_not_count (name : pystr) (L : RawLoan)
  (ps : list Payment) (now : date) :
  calculate_yearly_summary name L ps now
  = calculate_yearly_summary name L
      (filter (fun p => pystr_eqb (payer p) name) ps) now.
Proof.
  apply summary_ext. intros s e _. unfold paid_in.
  now rewrite filter_payer_mask.
Qed.

(** The four periods do not overlap: a payment selected in two periods
    of the schedule is selected in the same period twice. *)
Theorem payment_in_one_period (name : pystr) (p : Payment)
  (s1 e1 s2 e2 : date) :
  In (s1, e1) (get_debt_periods 2025) ->
  In (s2, e2) (get_debt_periods 2025) ->
  mask name s1 e1 p = true -> mask name s2 e2 p = true ->
  (s1, e1) = (s2, e2).
Proof.
  intros H1 H2 M1 M2. apply mask_iff in M1, M2.
  destruct M1 as (_ & A1 & B1). destruct M2 as (_ & A2 & B2).
  simpl in H1, H2.
  destruct H1 as [E1|[E1|[E1|[E1|[]]]]]; injection E1 as <- <-;
    destruct H2 as [E2|[E2|[E2|[E2|[]]]]]; injection E2 as <- <-;
    try reflexivity; exfalso; date_facts; lia.
Qed.

Lemma payment_in_one_period_witness :
  let p := mkPayment (py "Bob") (mkdate 2026 3 5) 500 [] in
  (mkdate 2025 4 5, mkdate 2026 3 5) = (mkdate 2025 4 5, mkdate 2026 3 5).
Proof.
  intros p.
  refine (payment_in_one_period (py "Bob") p _ _ _ _ _ _ _ _).
  - left. reflexivity.
  - left. reflexivity.
  - reflexivity.
  - reflexivity.
Defined.





Lemma py_round_comp (x y : Q) : (x == y)%Q -> py_round x = py_round y.
Proof.
  intros H. unfold py_round. rewrite (Qfloor_comp _ _ H).
  assert (E : (x - inject_Z (Qfloor y) ?= 1 # 2)%Q
              = (y - inject_Z (Qfloor y) ?= 1 # 2)%Q)
    by (rewrite H; reflexivity).
  cbv zeta. now rewrite E.
Qed.

Lemma py_round_bounds (x : Q) :
  (inject_Z (py_round x) - (1 # 2) <= x)%Q
  /\ (x <= inject_Z (py_round x) + (1 # 2))%Q.
Proof.
  pose proof (py_round_nearest x) as H.
  apply Qabs_Qle_condition in H. destruct H. split; lra.
Qed.

(** [round] is monotone. *)
Lemma py_round_le (x y : Q) : (x <= y)%Q -> py_round x <= py_round y.
Proof.
  intros H. destruct (Z_le_gt_dec (py_round x) (py_round y)) as [L|G];
    [exact L|exfalso].
  destruct (py_round_bounds x) as [X1 _].
  destruct (py_round_bounds y) as [_ Y2].
  assert (G' : (inject_Z (py_round y) + 1 <= inject_Z (py_round x))%Q).
  { change 1%Q with (inject_Z 1). rewrite <- inject_Z_plus.
    rewrite <- Zle_Qle. lia. }
  assert (E : (x == y)%Q) by lra.
  apply py_round_comp in E. lia.
Qed.

Lemma py_round_nonneg (x : Q) : (0 <= x)%Q -> 0 <= py_round x.
Proof.
  intros H. change 0 with (py_round 0). now apply py_round_le.
Qed.

Lemma py_max0_le (x y : Q) : (x <= y)%Q -> (py_max0 x <= py_max0 y)%Q.
Proof.
  intros H. rewrite !py_max0_is_max. apply Q.max_le_compat_l, H.
Qed.

Lemma date_gtb_later (now now' e : date) :
  date_le now now' -> date_gtb now e = true -> date_gtb now' e = true.
Proof.
  rewrite !date_gtb_lt, date_le_iff, !date_lt_iff. lia.
Qed.

Lemma period_row_fine_nonneg (name : pystr) (t : Q) (ps : list Payment)
  (now : date) (i : nat) (pe : date * date) :
  0 <= fine (period_row name t ps now i pe).
Proof.
  destruct pe as [s e]. unfold period_row.
  destruct (date_gtb now e); [destruct (Qltb 0 _)|]; simpl; try lia.
  apply py_round_nonneg.
  pose proof (py_max0_nonneg (t - paid_in name ps s e)). nra.
Qed.

(** The fine of a period does not shrink when the date moves on, nor
    when less has been paid in the period. *)
Lemma period_row_fine_le (name : pystr) (t : Q) (psA psB : list Payment)
  (now now' : date) (i : nat) (s e : date) :
  date_le now now' ->
  (paid_in name psA s e <= paid_in name psB s e)%Q ->
  fine (period_row name t psB now i (s, e))
  <= fine (period_row name t psA now' i (s, e)).
Proof.
  intros Hd Hp.
  assert (Hs : (py_max0 (t - paid_in name psB s e)
                <= py_max0 (t - paid_in name psA s e))%Q)
    by (apply py_max0_le; lra).
  pose proof (period_row_fine_nonneg name t psA now' i (s, e)) as Hn.
  unfold period_row in *.
  destruct (date_gtb now e) eqn:G; [|exact Hn].
  rewrite (date_gtb_later now now' e Hd G) in *.
  destruct (Qltb 0 (py_max0 (t - paid_in name psB s e))) eqn:PB; [|exact Hn].
  apply Qltb_true in PB.
  assert (PA : Qltb 0 (py_max0 (t - paid_in name psA s e)) = true)
    by (apply Qltb_true; lra).
  rewrite PA. simpl. apply py_round_le. lra.
Qed.

(** Fines only grow with time: at a later evaluation date the total paid
    is the same, and the total of the fines and the remaining overall
    debt are not smaller. *)
Theorem fines_grow_with_time (name : pystr) (L : RawLoan)
  (ps : list Payment) (now now' : date) :
  date_le now now' ->
  let res := calculate_yearly_summary name L ps now in
  let res' := calculate_yearly_summary name L ps now' in
  res_total_paid res' = res_total_paid res
  /\ res_total_fine res <= res_total_fine res'
  /\ (res_remaining res <= res_remaining res')%Q.
Proof.
  intros Hd res res'.
  destruct (summary_unfold name L ps now) as (_ & Hf & Hp & Hm).
  destruct (summary_unfold name L ps now') as (_ & Hf' & Hp' & Hm').
  cbv zeta in *. fold res in Hf, Hp, Hm. fold res' in Hf', Hp', Hm'.
  assert (Ep : res_total_paid res' = res_total_paid res).
  { rewrite Hp, Hp'.
    repeat match goal with
      | |- context [paid_in_period (period_row ?n ?t ?q ?w ?k (?a, ?b))] =>
          destruct (period_row_fields n t q w k a b) as (_ & _ & _ & -> & _)
      end.
    reflexivity. }
  assert (Ef : res_total_fine res <= res_total_fine res').
  { rewrite Hf, Hf'.
    repeat match goal with
      | |- context [fine (period_row ?n ?t ?q now ?k (?a, ?b))] =>
          let H := fresh in
          pose proof (period_row_fine_le n t q q now now' k a b Hd
                        (Qle_refl _)) as H;
          generalize dependent (fine (period_row n t q now k (a, b)))
      end.
    intros. lia. }
  split; [exact Ep|]. split; [exact Ef|].
  rewrite Hm, Hm', Ep. apply Qplus_le_r. now rewrite <- Zle_Qle.
Qed.

Lemma fines_grow_with_time_witness :
  res_total_fine (calculate_yearly_summary (py "Bob") (Numeric 100000) []
                    (mkdate 2026 3 6))
  <= res_total_fine (calculate_yearly_summary (py "Bob") (Numeric 100000) []
                       (mkdate 2027 3 6)).
Proof.
  refine (proj1 (proj2 (fines_grow_with_time (py "Bob") (Numeric 100000) []
                          (mkdate 2026 3 6) (mkdate 2027 3 6) _))).
  discriminate.
Defined.

(** Signs: in every row the shortfall and the fine are not negative; the
    total of the fines is not negative and the remaining overall debt is
    at least that total - it is never negative, even when more than the
    loan was paid. *)
Theorem summary_is_never_negative (name : pystr) (L : RawLoan)
  (ps : list Payment) (now : date) :
  let res := calculate_yearly_summary name L ps now in
  (forall r, In r (res_rows res) -> 0 <= fine r /\ (0 <= shortfall r)%Q)
  /\ 0 <= res_total_fine res
  /\ (inject_Z (res_total_fine res) <= res_remaining res)%Q
  /\ (0 <= res_remaining res)%Q.
Proof.
  intros res.
  assert (Hrow : forall r, In r (res_rows res) ->
                           0 <= fine r /\ (0 <= shortfall r)%Q).
  { intros r Hin.
    destruct (summary_rows_cases name L ps now r Hin) as (i & s & e & _ & ->).
    split; [apply period_row_fine_nonneg|].
    destruct (period_row_fields name (coerce_loan L * (25 # 100)) ps now i s e)
      as (_ & _ & _ & _ & -> & _).
    apply py_max0_nonneg. }
  destruct (summary_unfold name L ps now) as (_ & Hf & _ & Hm).
  cbv zeta in Hf, Hm. fold res in Hf, Hm.
  assert (Hf0 : 0 <= res_total_fine res).
  { rewrite Hf.
    repeat match goal with
      | |- context [fine (period_row ?n ?t ?q ?w ?k ?pe)] =>
          let H := fresh in
          pose proof (period_row_fine_nonneg n t q w k pe) as H;
          generalize dependent (fine (period_row n t q w k pe))
      end.
    intros. lia. }
  pose proof (py_max0_nonneg (coerce_loan L - res_total_paid res)) as Hmax.
  assert (Hq : (0 <= inject_Z (res_total_fine res))%Q)
    by (change 0%Q with (inject_Z 0); now rewrite <- Zle_Qle).
  split; [exact Hrow|]. split; [exact Hf0|]. rewrite Hm. split; lra.
Qed.

Lemma summary_is_never_negative_witness :
  let over := mkPayment (py "Bob") (mkdate 2025 6 1) 500000 [] in
  (0 <= res_remaining (calculate_yearly_summary (py "Bob") (Numeric 100000)
                         [over] (mkdate 2030 1 1)))%Q.
Proof.
  intros over.
  exact (proj2 (proj2 (proj2 (summary_is_never_negative (py "Bob")
                                (Numeric 100000) [over] (mkdate 2030 1 1))))).
Defined.

Lemma period_row_fine_upper (name : pystr) (t : Q) (ps : list Payment)
  (now : date) (i : nat) (s e : date) :
  (0 <= t)%Q -> (0 <= paid_in name ps s e)%Q ->
  (shortfall (period_row name t ps now i (s, e)) <= t)%Q
  /\ (inject_Z (fine (period_row name t ps now i (s, e)))
      <= t * (15 # 100) + (1 # 2))%Q.
Proof.
  intros Ht Hp.
  assert (Hs : (py_max0 (t - paid_in name ps s e) <= t)%Q).
  { rewrite py_max0_is_max. apply Q.max_lub; lra. }
  destruct (period_row_fields name t ps now i s e)
    as (_ & _ & _ & _ & Es & _).
  split; [now rewrite Es|].
  unfold period_row.
  destruct (date_gtb now e); [destruct (Qltb 0 _)|]; simpl;
    try (change (inject_Z 0) with 0%Q; lra).
  destruct (py_round_bounds (py_max0 (t - paid_in name ps s e) * (15 # 100)))
    as [B _].
  lra.
Qed.





Lemma paid_in_cons_le (name : pystr) (p : Payment) (ps : list Payment)
  (s e : date) :
  (0 <= amount p)%Q ->
  (paid_in name ps s e <= paid_in name (p :: ps) s e)%Q.
Proof.
  intros H. rewrite paid_in_cons. destruct (mask name s e p); lra.
Qed.



(* ================================================================== *)
(** * Further properties of the normalisation of a cell *)

Lemma lstrip_length (s : pystr) :
  (List.length (lstrip s) <= List.length s)%nat.
Proof.
  induction s as [|c s IH]; simpl; [lia|].
  destruct (is_space c); simpl; lia.
Qed.

Lemma lstrip_head (s : pystr) (c : N) (t : pystr) :
  lstrip s = c :: t -> is_space c = false.
Proof.
  induction s as [|a s IH]; simpl; [discriminate|].
  destruct (is_space a) eqn:E; [exact IH|].
  intros H. injection H as <- _. exact E.
Qed.

Lemma lstrip_suffix (s : pystr) : exists pre, s = pre ++ lstrip s.
Proof.
  induction s as [|a s (pre & IH)]; simpl; [now exists []|].
  destruct (is_space a).
  - exists (a :: pre). simpl. now f_equal.
  - now exists [].
Qed.

Lemma lstrip_In (s : pystr) (x : N) : In x (lstrip s) -> In x s.
Proof.
  destruct (lstrip_suffix s) as (pre & E). intros H. rewrite E.
  apply in_or_app. now right.
Qed.

Lemma lstrip_fix (s : pystr) :
  lstrip s = s <-> (forall c t, s = c :: t -> is_space c = false).
Proof.
  split.
  - intros H c t E. apply (lstrip_head s c t). now rewrite H.
  - intros H. destruct s as [|c t]; [reflexivity|]. simpl.
    now rewrite (H c t eq_refl).
Qed.

Lemma lstrip_length_fix (s : pystr) :
  List.length (lstrip s) = List.length s -> lstrip s = s.
Proof.
  destruct s as [|c t]; [reflexivity|]. simpl.
  destruct (is_space c); [|reflexivity].
  pose proof (lstrip_length t). simpl. lia.
Qed.

Lemma strip_length (s : pystr) :
  (List.length (strip s) <= List.length s)%nat.
Proof.
  unfold strip. rewrite length_rev.
  pose proof (lstrip_length (rev (lstrip s))) as H.
  rewrite length_rev in H. pose proof (lstrip_length s). lia.
Qed.

Lemma strip_In (s : pystr) (x : N) : In x (strip s) -> In x s.
Proof.
  unfold strip. intros H. apply in_rev in H. apply lstrip_In in H.
  apply in_rev in H. now apply lstrip_In.
Qed.

Lemma no_edge_space_fix (s : pystr) :
  no_edge_space s <-> lstrip s = s /\ lstrip (rev s) = rev s.
Proof.
  unfold no_edge_space. rewrite !lstrip_fix. split; intros [H1 H2]; split;
    try exact H1.
  - intros c t E. apply (H2 c (rev t)).
    rewrite <- (rev_involutive s), E. reflexivity.
  - intros c t E. apply (H2 c (rev t)).
    rewrite E, rev_app_distr. reflexivity.
Qed.

Lemma strip_fix (s : pystr) : strip s = s <-> no_edge_space s.
Proof.
  rewrite no_edge_space_fix. split.
  - intros H.
    assert (L : List.length (strip s) = List.length s) by now rewrite H.
    unfold strip in L. rewrite length_rev in L.
    pose proof (lstrip_length (rev (lstrip s))) as L1.
    rewrite length_rev in L1. pose proof (lstrip_length s) as L2.
    assert (E1 : lstrip s = s) by (apply lstrip_length_fix; lia).
    split; [exact E1|]. rewrite E1 in L.
    apply lstrip_length_fix. now rewrite length_rev.
  - intros [E1 E2]. unfold strip. rewrite E1, E2. apply rev_involutive.
Qed.

Lemma strip_no_edge_space (s : pystr) : no_edge_space (strip s).
Proof.
  split; intros c t E; unfold strip in E.
  - destruct (lstrip_suffix (rev (lstrip s))) as (pre & P).
    apply (f_equal (@rev N)) in E. rewrite rev_involutive in E.
    rewrite E in P. simpl in P.
    apply (f_equal (@rev N)) in P. rewrite rev_involutive in P.
    rewrite rev_app_distr, rev_app_distr, rev_involutive in P. simpl in P.
    eapply lstrip_head. exact P.
  - apply (f_equal (@rev N)) in E. rewrite rev_involutive in E.
    rewrite rev_app_distr in E. simpl in E.
    eapply lstrip_head. exact E.
Qed.

Lemma replace_char_fix (a b : N) (s : pystr) :
  ~ In a s -> replace_char a b s = s.
Proof.
  intros H. unfold replace_char. rewrite <- (map_id s) at 2.
  apply map_ext_in. intros c Hc.
  destruct (N.eqb_spec c a) as [->|]; [contradiction|reflexivity].
Qed.

Lemma remove_char_fix (a : N) (s : pystr) :
  ~ In a s -> remove_char a s = s.
Proof.
  intros H. unfold remove_char. induction s as [|c s IH]; [reflexivity|].
  simpl. destruct (N.eqb_spec c a) as [->|].
  - exfalso. apply H. now left.
  - simpl. f_equal. apply IH. intros Hin. apply H. now right.
Qed.

Lemma normalize_In (s : pystr) (c : N) :
  In c (_normalize_gsheet_col_name s) ->
  c <> 160%N /\ c <> 65279%N /\ (In c s \/ (c = 32%N /\ In 160%N s)).
Proof.
  unfold _normalize_gsheet_col_name, remove_char, replace_char.
  intros H. apply filter_In in H as [H Hb].
  apply negb_true_iff, N.eqb_neq in Hb.
  apply in_map_iff in H as (x & Ex & Hx). apply strip_In in Hx.
  destruct (x =? 160)%N eqn:E.
  - apply N.eqb_eq in E. subst x c.
    split; [discriminate|]. split; [exact Hb|]. right. auto.
  - apply N.eqb_neq in E. subst c. auto.
Qed.

Lemma normalize_length (s : pystr) :
  (List.length (_normalize_gsheet_col_name s) <= List.length s)%nat.
Proof.
  unfold _normalize_gsheet_col_name, remove_char, replace_char.
  pose proof (filter_length_le
                (fun c => negb (c =? 65279)%N)
                (map (fun c => if (c =? 160)%N then 32%N else c) (strip s)))
    as H.
  rewrite length_map in H. pose proof (strip_length s). lia.
Qed.

(** The cells that the normalisation leaves as they are: those without
    a no-break space, without a byte-order mark, and without a
    whitespace character at either end. *)
Lemma normalize_fix (s : pystr) :
  _normalize_gsheet_col_name s = s <->
  no_edge_space s /\ ~ In 160%N s /\ ~ In 65279%N s.
Proof.
  split.
  - intros H.
    assert (N1 : ~ In 160%N s).
    { intros Hin. rewrite <- H in Hin. apply normalize_In in Hin. tauto. }
    assert (N2 : ~ In 65279%N s).
    { intros Hin. rewrite <- H in Hin. apply normalize_In in Hin. tauto. }
    split; [|tauto]. apply strip_fix.
    assert (L : List.length (strip s) = List.length s).
    { pose proof (strip_length s).
      assert (L : List.length (_normalize_gsheet_col_name s) = List.length s)
        by now rewrite H.
      unfold _normalize_gsheet_col_name, remove_char, replace_char in L.
      pose proof (filter_length_le
                    (fun c => negb (c =? 65279)%N)
                    (map (fun c => if (c =? 160)%N then 32%N else c)
                         (strip s))) as F.
      rewrite length_map in F. lia. }
    unfold strip in L. rewrite length_rev in L.
    pose proof (lstrip_length (rev (lstrip s))) as L1.
    rewrite length_rev in L1. pose proof (lstrip_length s) as L2.
    assert (E1 : lstrip s = s) by (apply lstrip_length_fix; lia).
    unfold strip. rewrite E1. rewrite E1 in L.
    rewrite (lstrip_length_fix (rev s)) by now rewrite length_rev.
    apply rev_involutive.
  - intros (He & N1 & N2). unfold _normalize_gsheet_col_name.
    rewrite (proj2 (strip_fix s) He), (replace_char_fix _ _ _ N1).
    now apply remove_char_fix.
Qed.

(** A cell without a byte-order mark is normalised to a string without
    whitespace at either end. *)
Lemma normalize_no_edge_space (s : pystr) :
  ~ In 65279%N s -> no_edge_space (_normalize_gsheet_col_name s).
Proof.
  intros Hb. unfold _normalize_gsheet_col_name.
  assert (Hb' : ~ In 65279%N (replace_char 160 32 (strip s))).
  { intros H. unfold replace_char in H.
    apply in_map_iff in H as (x & Ex & Hx). apply strip_In in Hx.
    destruct (x =? 160)%N eqn:E; [discriminate|]. now subst x. }
  rewrite (remove_char_fix _ _ Hb').
  destruct (strip_no_edge_space s) as [H1 H2].
  assert (F : forall x, is_space x = false ->
                is_space (if (x =? 160)%N then 32%N else x) = false).
  { intros x Hx. destruct (x =? 160)%N eqn:E; [|exact Hx].
    apply N.eqb_eq in E. subst x. discriminate. }
  unfold replace_char. split; intros c t E.
  - destruct (strip s) as [|x u] eqn:Es; [discriminate|].
    simpl in E. injection E as <- _. apply F. exact (H1 x u eq_refl).
  - apply map_eq_app in E as (u & v & Es & _ & Ev).
    destruct v as [|x [|y v]]; try discriminate.
    simpl in Ev. injection Ev as <-. apply F. exact (H2 x u Es).
Qed.

(** What the normalisation guarantees: the result has no no-break space
    and no byte-order mark and is not longer than the cell; it is the
    cell itself exactly when the cell has neither of the two characters
    and no whitespace at either end; and on a cell without a byte-order
    mark the result has no whitespace at either end and normalising
    twice changes nothing more. *)
Theorem normalize_properties (s : pystr) :
  ~ In 160%N (_normalize_gsheet_col_name s)
  /\ ~ In 65279%N (_normalize_gsheet_col_name s)
  /\ (List.length (_normalize_gsheet_col_name s) <= List.length s)%nat
  /\ (_normalize_gsheet_col_name s = s <->
      no_edge_space s /\ ~ In 160%N s /\ ~ In 65279%N s)
  /\ (~ In 65279%N s ->
      no_edge_space (_normalize_gsheet_col_name s)
      /\ _normalize_gsheet_col_name (_normalize_gsheet_col_name s)
         = _normalize_gsheet_col_name s).
Proof.
  assert (N1 : ~ In 160%N (_normalize_gsheet_col_name s))
    by (intros H; apply normalize_In in H; tauto).
  assert (N2 : ~ In 65279%N (_normalize_gsheet_col_name s))
    by (intros H; apply normalize_In in H; tauto).
  split; [exact N1|]. split; [exact N2|].
  split; [apply normalize_length|]. split; [apply normalize_fix|].
  intros Hb. pose proof (normalize_no_edge_space s Hb) as He.
  split; [exact He|]. apply normalize_fix. auto.
Qed.

Lemma normalize_properties_witness :
  _normalize_gsheet_col_name
    (_normalize_gsheet_col_name (32 :: 160 :: py "Bob  Lee" ++ [160; 9]))%N
  = py "Bob  Lee".
Proof.
  refine (eq_trans
            (proj2 (proj2 (proj2 (proj2 (proj2 (normalize_properties
              (32 :: 160 :: py "Bob  Lee" ++ [160; 9])%N)))) _)) _).
  - simpl. intros H. repeat (destruct H as [H|H]; [discriminate|]).
    exact H.
  - reflexivity.
Defined.

(* ================================================================== *)
(** * Further properties of the lookup and the update of a sheet row *)

Lemma index_of_None (x : pystr) (l : list pystr) :
  index_of x l = None <-> existsb (fun h => pystr_eqb h x) l = false.
Proof.
  induction l as [|h l IH]; simpl; [tauto|].
  destruct (pystr_eqb h x); simpl; [split; discriminate|].
  rewrite <- IH. destruct (index_of x l); simpl; split; congruence.
Qed.

Lemma missing_cols_payment (headers : list pystr) :
  missing_cols PAYMENT_GSHEET_COLS headers = [] <->
  exists pi di ai ni,
    index_of col_payer headers = Some pi
    /\ index_of col_date headers = Some di
    /\ index_of col_amount headers = Some ai
    /\ index_of col_note headers = Some ni.
Proof.
  unfold missing_cols, PAYMENT_GSHEET_COLS. cbn [filter].
  assert (H : forall x,
             existsb (fun h => pystr_eqb h x) headers
             = match index_of x headers with Some _ => true | None => false end).
  { intros x. pose proof (index_of_None x headers) as [H1 H2].
    destruct (index_of x headers).
    - destruct (existsb (fun h => pystr_eqb h x) headers); [reflexivity|].
      now specialize (H2 eq_refl).
    - now apply H1. }
  rewrite !H.
  destruct (index_of col_payer headers) as [pi|];
    destruct (index_of col_date headers) as [di|];
    destruct (index_of col_amount headers) as [ai|];
    destruct (index_of col_note headers) as [ni|];
    cbn [negb]; split; intros E;
    try discriminate;
    try (destruct E as (? & ? & ? & ? & ? & ? & ? & ?); discriminate).
  - eauto 8.
  - reflexivity.
Qed.

(** The three ways the lookup ends. *)
Lemma locate_row_cases (to_numeric : pystr -> option Q) (sheet : Sheet)
  (row : Payment) :
  (sheet = [] /\ locate_row to_numeric sheet row = RowIndex (-1))
  \/ (exists header data,
        sheet = header :: data
        /\ missing_cols PAYMENT_GSHEET_COLS
             (map _normalize_gsheet_col_name header) <> []
        /\ locate_row to_numeric sheet row = Halted)
  \/ (exists header data pi di ai ni,
        sheet = header :: data
        /\ index_of col_payer (map _normalize_gsheet_col_name header) = Some pi
        /\ index_of col_date (map _normalize_gsheet_col_name header) = Some di
        /\ index_of col_amount (map _normalize_gsheet_col_name header)
           = Some ai
        /\ index_of col_note (map _normalize_gsheet_col_name header) = Some ni
        /\ locate_row to_numeric sheet row
           = RowIndex
               (scan_rows
                  (row_matches to_numeric pi di ai ni
                     (strftime_ymd (paid_on row)) row) 0 data)).
Proof.
  destruct sheet as [|header data]; [left; auto|right].
  destruct (list_eq_dec (list_eq_dec N.eq_dec)
              (missing_cols PAYMENT_GSHEET_COLS
                 (map _normalize_gsheet_col_name header)) []) as [E|E].
  - right. apply missing_cols_payment in E
      as (pi & di & ai & ni & Hp & Hd & Ha & Hn).
    exists header, data, pi, di, ai, ni. repeat (split; [assumption|]).
    simpl. now rewrite Hp, Hd, Ha, Hn.
  - left. exists header, data. split; [reflexivity|]. split; [exact E|].
    simpl.
    destruct (index_of col_payer (map _normalize_gsheet_col_name header))
      as [pi|] eqn:Hp; [|reflexivity].
    destruct (index_of col_date (map _normalize_gsheet_col_name header))
      as [di|] eqn:Hd; [|reflexivity].
    destruct (index_of col_amount (map _normalize_gsheet_col_name header))
      as [ai|] eqn:Ha; [|reflexivity].
    destruct (index_of col_note (map _normalize_gsheet_col_name header))
      as [ni|] eqn:Hn; [|reflexivity].
    exfalso. apply E, missing_cols_payment. eauto 8.
Qed.

Lemma set_nth_length (new : Row) (s : Sheet) (i : nat) :
  (i < List.length s)%nat ->
  List.length (set_nth i new s) = List.length s.
Proof.
  revert i. induction s as [|old s IH]; intros i H; simpl in H; [lia|].
  destruct i as [|i]; simpl; [reflexivity|]. f_equal. apply IH. lia.
Qed.

(** The lookup stops exactly when the header fails the required-column
    check of [read_sheet_to_df] on the payment columns; on an empty
    sheet it ends with -1.  Otherwise it ends with -1 or with the number
    of a data row, between 2 and the number of rows of the sheet: the
    update that follows never writes over the header row and never adds
    a row. *)
Theorem lookup_ends_in_range (to_numeric : pystr -> option Q)
  (sheet : Sheet) (row : Payment) :
  locate_row to_numeric [] row = RowIndex (-1)
  /\ (locate_row to_numeric sheet row = Halted <->
      exists header data,
        sheet = header :: data
        /\ missing_cols PAYMENT_GSHEET_COLS
             (map _normalize_gsheet_col_name header) <> [])
  /\ (forall z, locate_row to_numeric sheet row = RowIndex z ->
        z = -1
        \/ (2 <= z <= Z.of_nat (List.length sheet)
            /\ forall new,
                 List.length (update_row sheet z new) = List.length sheet
                 /\ nth_error (update_row sheet z new) 0
                    = nth_error sheet 0)).
Proof.
  split; [reflexivity|].
  destruct (locate_row_cases to_numeric sheet row)
    as [(-> & E)|[(h & d & -> & M & E)|
                  (h & d & pi & di & ai & ni & -> & Hp & Hd & Ha & Hn & E)]].
  - split.
    + split; [discriminate|]. intros (? & ? & ? & _). discriminate.
    + intros z Hz. left. simpl in Hz. congruence.
  - split.
    + split; [eauto|]. intros _. exact E.
    + intros z Hz. congruence.
  - split.
    + rewrite E. split; [discriminate|].
      intros (h' & d' & Eq & M). injection Eq as <- <-.
      exfalso. apply M, missing_cols_payment. eauto 8.
    + intros z Hz. rewrite E in Hz. injection Hz as <-.
      match goal with |- context [scan_rows ?m 0 d] => set (f := m) end.
      destruct (scan_rows_range f d 0) as [H|H]; [now left|right].
      simpl List.length. split; [lia|]. intros new. unfold update_row.
      split.
      * apply set_nth_length. simpl. lia.
      * apply set_nth_other; simpl; lia.
Qed.

Lemma lookup_ends_in_range_witness :
  let r := [py "Bob"; py "2025-05-01"; py "100.0"; py "cash"] in
  let sheet := [PAYMENT_GSHEET_COLS; r] in
  let row := mkPayment (py "Bob") (mkdate 2025 5 1) 100 (py "cash") in
  let new := [py "Bob"; py "2025-05-03"; py "150.0"; py "bank"] in
  locate_row to_numeric_plain sheet row = RowIndex 2
  /\ nth_error (update_row sheet 2 new) 0 = Some PAYMENT_GSHEET_COLS.
Proof.
  intros r sheet row new. split; [reflexivity|].
  destruct (proj2 (proj2 (lookup_ends_in_range to_numeric_plain sheet row))
              2 eq_refl) as [H|[_ H]].
  - discriminate.
  - exact (proj2 (H new)).
Defined.

(** A payment that the normalisation cannot produce is never found: if
    the payer or the note in memory contains a no-break space or a
    byte-order mark, or if one of them starts or ends with whitespace
    while no cell of the sheet contains a byte-order mark, the lookup
    ends with -1 (or stops) whatever the rows of the sheet are. *)
Theorem unnormalised_payment_is_never_found
  (to_numeric : pystr -> option Q) (sheet : Sheet) (row : Payment) :
  (In 160%N (payer row) \/ In 65279%N (payer row)
   \/ In 160%N (note row) \/ In 65279%N (note row)
   \/ ((~ no_edge_space (payer row) \/ ~ no_edge_space (note row))
       /\ forall r c, In r sheet -> In c r -> ~ In 65279%N c)) ->
  locate_row to_numeric sheet row = Halted
  \/ locate_row to_numeric sheet row = RowIndex (-1).
Proof.
  intros H.
  destruct (locate_row_cases to_numeric sheet row)
    as [(_ & E)|[(h & d & _ & _ & E)|
                 (h & d & pi & di & ai & ni & -> & _ & _ & _ & _ & E)]];
    [now right | now left | right].
  rewrite E. f_equal. apply scan_rows_none. intros r Hr.
  match goal with |- ?m r = false => destruct (m r) eqn:M end;
    [exfalso|reflexivity].
  apply row_matches_iff in M. destruct M as (Mp & _ & _ & Mn).
  assert (Hc : forall k, ~ In 160%N (_normalize_gsheet_col_name (nth k r []))
                         /\ ~ In 65279%N
                              (_normalize_gsheet_col_name (nth k r [])))
    by (intros k; split; intros X; apply normalize_In in X; tauto).
  destruct H as [H|[H|[H|[H|[H Hb]]]]].
  - rewrite <- Mp in H. exact (proj1 (Hc pi) H).
  - rewrite <- Mp in H. exact (proj2 (Hc pi) H).
  - rewrite <- Mn in H. exact (proj1 (Hc ni) H).
  - rewrite <- Mn in H. exact (proj2 (Hc ni) H).
  - assert (Hcell : forall k, ~ In 65279%N (nth k r [])).
    { intros k.
      destruct (nth_in_or_default k r []) as [Hin | E0];
        [|rewrite E0; intros []].
      apply (Hb r); [now right | exact Hin]. }
    destruct H as [H|H]; apply H.
    + rewrite <- Mp. apply normalize_no_edge_space, Hcell.
    + rewrite <- Mn. apply normalize_no_edge_space, Hcell.
Qed.

Lemma unnormalised_payment_is_never_found_witness :
  let r := [py "Bob"; py "2025-05-01"; py "100.0"; py "cash "] in
  let row := mkPayment (py "Bob") (mkdate 2025 5 1) 100 (py "cash ") in
  locate_row to_numeric_plain [PAYMENT_GSHEET_COLS; r] row = RowIndex (-1).
Proof.
  intros r row.
  destruct (unnormalised_payment_is_never_found to_numeric_plain
              [PAYMENT_GSHEET_COLS; r] row) as [H|H].
  - right. right. right. right. split.
    + right. intros [_ H]. specialize (H 32%N (py "cash") eq_refl).
      discriminate.
    + intros r0 c Hr Hc Hb. simpl in Hr.
      destruct Hr as [<-|[<-|[]]]; simpl in Hc;
        repeat (destruct Hc as [<-|Hc]; [simpl in Hb|]);
        try contradiction;
        repeat (destruct Hb as [Hb|Hb]; [discriminate|]);
        contradiction.
  - discriminate.
  - exact H.
Defined.

Lemma digit_inj (a b : Z) :
  0 <= a < 10 -> 0 <= b < 10 ->
  Z.to_N (48 + a) = Z.to_N (48 + b) -> a = b.
Proof. lia. Qed.

Lemma two_digits_inj (a b : Z) :
  0 <= a <= 99 -> 0 <= b <= 99 -> two_digits a = two_digits b -> a = b.
Proof.
  unfold two_digits, digit. intros Ha Hb E.
  injection E as E1 E0.
  apply digit_inj in E1; [|apply Z.mod_pos_bound; lia ..].
  apply digit_inj in E0; [|apply Z.mod_pos_bound; lia ..].
  rewrite (Z.div_mod a 10), (Z.div_mod b 10) by lia.
  rewrite (Z.mod_small (a / 10) 10) in E1
    by (split; [apply Z.div_pos; lia | apply Z.div_lt_upper_bound; lia]).
  rewrite (Z.mod_small (b / 10) 10) in E1
    by (split; [apply Z.div_pos; lia | apply Z.div_lt_upper_bound; lia]).
  lia.
Qed.

Lemma four_digits_inj (a b : Z) :
  0 <= a <= 9999 -> 0 <= b <= 9999 ->
  four_digits a = four_digits b -> a = b.
Proof.
  unfold four_digits, digit. intros Ha Hb E.
  injection E as E3 E2 E1 E0.
  apply digit_inj in E3; [|apply Z.mod_pos_bound; lia ..].
  apply digit_inj in E2; [|apply Z.mod_pos_bound; lia ..].
  apply digit_inj in E1; [|apply Z.mod_pos_bound; lia ..].
  apply digit_inj in E0; [|apply Z.mod_pos_bound; lia ..].
  revert E3 E2 E1 E0. Z.div_mod_to_equations. lia.
Qed.



Lemma scan_rows_le (m : Row -> bool) (rows : list Row) (k i : nat) (r : Row) :
  nth_error rows i = Some r -> m r = true ->
  Z.of_nat k + 2 <= scan_rows m k rows <= Z.of_nat (k + i) + 2.
Proof.
  revert k i. induction rows as [|r0 rows IH]; intros k i Hr Hm.
  - destruct i; discriminate.
  - simpl. destruct (m r0) eqn:E; [lia|].
    destruct i as [|i]; simpl in Hr; [congruence|].
    specialize (IH (S k) i Hr Hm). lia.
Qed.

(** Round trip of an edit.  With the four payment columns first in the
    header, in their order: when the row of a payment has been located
    and is overwritten with four cells that read back as the edited
    payment (payer, [YYYY-MM-DD] date, amount and note, after
    normalisation), the lookup of the edited payment in the new sheet
    succeeds, at the overwritten row or, when an earlier row reads the
    same, at that earlier row. *)
Theorem edited_payment_is_found_again (to_numeric : pystr -> option Q)
  (header : Row) (data : list Row) (row row' : Payment)
  (c0 c1 c2 c3 : pystr) (z : Z) :
  let headers := map _normalize_gsheet_col_name header in
  index_of col_payer headers = Some 0%nat ->
  index_of col_date headers = Some 1%nat ->
  index_of col_amount headers = Some 2%nat ->
  index_of col_note headers = Some 3%nat ->
  locate_row to_numeric (header :: data) row = RowIndex z -> z <> -1 ->
  _normalize_gsheet_col_name c0 = payer row' ->
  _normalize_gsheet_col_name c1 = strftime_ymd (paid_on row') ->
  (exists q, to_numeric (_normalize_gsheet_col_name c2) = Some q
             /\ (q == amount row')%Q) ->
  _normalize_gsheet_col_name c3 = note row' ->
  exists z',
    locate_row to_numeric (update_row (header :: data) z [c0; c1; c2; c3])
      row' = RowIndex z'
    /\ 2 <= z' <= z.
Proof.
  intros headers Hp Hd Ha Hn Hloc Hz N0 N1 N2 N3.
  assert (Hrange : 2 <= z < 2 + Z.of_nat (List.length data)).
  { unfold locate_row in Hloc. fold headers in Hloc.
    rewrite Hp, Hd, Ha, Hn in Hloc. injection Hloc as <-.
    match goal with |- context [scan_rows ?m 0 data] =>
      destruct (scan_rows_range m data 0) as [H|H] end; [contradiction|lia]. }
  set (i := Z.to_nat (z - 2)).
  assert (Hi : (i < List.length data)%nat) by (unfold i; lia).
  destruct (nth_error data i) as [old|] eqn:Hold;
    [|apply nth_error_None in Hold; lia].
  assert (Eu : update_row (header :: data) z [c0; c1; c2; c3]
               = header :: set_nth i [c0; c1; c2; c3] data).
  { unfold update_row. replace (Z.to_nat (z - 1)) with (S i) by (unfold i; lia).
    reflexivity. }
  rewrite Eu. unfold locate_row. fold headers. rewrite Hp, Hd, Ha, Hn.
  eexists. split; [reflexivity|].
  pose proof (set_nth_same [c0; c1; c2; c3] data i old Hold) as Hnew.
  match goal with |- context [scan_rows ?m 0 ?rows] =>
    pose proof (scan_rows_le m rows 0 i _ Hnew) as Hle end.
  assert (Hm : row_matches to_numeric 0 1 2 3 (strftime_ymd (paid_on row'))
                 row' (firstn 4 [c0; c1; c2; c3] ++ skipn 4 old) = true)
    by (apply row_matches_iff; simpl; auto).
  specialize (Hle Hm).
  assert (Ei : Z.of_nat i = z - 2) by (unfold i; lia).
  lia.
Qed.

Lemma edited_payment_is_found_again_witness :
  let r := [py "Bob"; py "2025-05-01"; py "100.0"; py "cash"] in
  let row := mkPayment (py "Bob") (mkdate 2025 5 1) 100 (py "cash") in
  let row' := mkPayment (py "Bob") (mkdate 2025 5 3) 150 (py "bank") in
  exists z',
    locate_row to_numeric_plain
      (update_row [PAYMENT_GSHEET_COLS; r] 2
         [py "Bob"; py "2025-05-03"; py "150.0"; py "bank"]) row'
    = RowIndex z'
    /\ 2 <= z' <= 2.
Proof.
  intros r row row'.
  refine (edited_payment_is_found_again to_numeric_plain PAYMENT_GSHEET_COLS
            [r] row row' (py "Bob") (py "2025-05-03") (py "150.0")
            (py "bank") 2 eq_refl eq_refl eq_refl eq_refl eq_refl
            _ eq_refl eq_refl _ eq_refl).
  - discriminate.
  - eexists. split; reflexivity.
Defined.

(* ================================================================== *)
(** * Further properties of the cascade delete *)

Lemma delete_debtor_payments_filter (header : Row) (data : list Row)
  (name : pystr) :
  delete_debtor_payments (header :: data) name
  = header :: filter (fun r => negb (dropped header name r)) data.
Proof.
  unfold delete_debtor_payments. now rewrite keep_loop_filter.
Qed.

Lemma filter_twice {A : Type} (f g : A -> bool) (l : list A) :
  filter f (filter g l) = filter (fun x => g x && f x) l.
Proof.
  induction l as [|x l IH]; [reflexivity|]. simpl.
  destruct (g x); simpl; [destruct (f x)|]; now rewrite IH.
Qed.

Lemma filter_all {A : Type} (f : A -> bool) (l : list A) :
  filter f l = l <-> forall x, In x l -> f x = true.
Proof.
  split.
  - intros E x Hin. rewrite <- E in Hin. now apply filter_In in Hin.
  - intros H. induction l as [|x l IH]; [reflexivity|]. simpl.
    rewrite (H x (or_introl eq_refl)). f_equal.
    apply IH. intros y Hy. apply H. now right.
Qed.

(** Deleting is idempotent and deletions commute: deleting the same
    debtor a second time changes nothing, and two debtors can be deleted
    in either order with the same payment sheet as result. *)
Theorem delete_idempotent_and_commutes (sheet : Sheet) (a b : pystr) :
  delete_debtor_payments (delete_debtor_payments sheet a) a
  = delete_debtor_payments sheet a
  /\ delete_debtor_payments (delete_debtor_payments sheet a) b
     = delete_debtor_payments (delete_debtor_payments sheet b) a.
Proof.
  destruct sheet as [|header data]; [split; reflexivity|].
  rewrite !delete_debtor_payments_filter, !filter_twice. split; f_equal.
  - apply filter_ext. intros r. now destruct (dropped header a r).
  - apply filter_ext. intros r. apply andb_comm.
Qed.

(** The delete handler keeps the header row first and never adds a row;
    it leaves the sheet exactly as it was when no data row has the
    deleted name in its payer cell - in particular whenever the header
    has no payer column. *)
Theorem delete_keeps_header (header : Row) (data : list Row)
  (name : pystr) :
  let sheet := header :: data in
  nth_error (delete_debtor_payments sheet name) 0 = Some header
  /\ (List.length (delete_debtor_payments sheet name)
      <= List.length sheet)%nat
  /\ (delete_debtor_payments sheet name = sheet <->
      forall r, In r data -> dropped header name r = false)
  /\ (index_of col_payer (map _normalize_gsheet_col_name header) = None ->
      delete_debtor_payments sheet name = sheet).
Proof.
  cbv zeta. rewrite delete_debtor_payments_filter.
  assert (Iff : header :: filter (fun r => negb (dropped header name r)) data
                = header :: data <->
                forall r, In r data -> dropped header name r = false).
  { split.
    - intros E r Hin. injection E as E.
      apply (proj1 (filter_all _ data) E) in Hin.
      now apply negb_true_iff in Hin.
    - intros H. f_equal. apply filter_all. intros r Hin.
      now rewrite (H r Hin). }
  split; [reflexivity|]. split; [|split; [exact Iff|]].
  - simpl. pose proof (filter_length_le
                         (fun r => negb (dropped header name r)) data). lia.
  - intros Hnone. apply Iff. intros r _.
    unfold dropped, payer_cell. now rewrite Hnone.
Qed.

Lemma delete_keeps_header_witness :
  let r := [py "Ann"; py "2025-05-02"; py "50.0"; []] in
  delete_debtor_payments [[py "payer"; py "date"]; r] (py "Ann")
  = [[py "payer"; py "date"]; r].
Proof.
  intros r.
  refine (proj2 (proj2 (proj2 (delete_keeps_header [py "payer"; py "date"]
                                 [r] (py "Ann")))) _).
  reflexivity.
Defined.

(** After the deletion of a debtor with a non-empty name, no payment of
    that payer can be located in the sheet that was written: the lookup
    ends with -1 (or stops on a missing column). *)
Theorem deleted_debtor_has_no_row (to_numeric : pystr -> option Q)
  (sheet : Sheet) (name : pystr) (row : Payment) :
  name <> [] -> payer row = name ->
  let sheet' := delete_debtor_payments sheet name in
  locate_row to_numeric sheet' row = Halted
  \/ locate_row to_numeric sheet' row = RowIndex (-1).
Proof.
  intros Hne Hpayer sheet'.
  destruct (locate_row_cases to_numeric sheet' row)
    as [(_ & E)|[(h & d & _ & _ & E)|
                 (h & d & pi & di & ai & ni & Es & Hp & _ & _ & _ & E)]];
    [now right | now left | right].
  rewrite E. f_equal. apply scan_rows_none. intros r Hr.
  match goal with |- ?m r = false => destruct (m r) eqn:M end;
    [exfalso|reflexivity].
  apply row_matches_iff in M. destruct M as (Mp & _).
  unfold sheet' in Es. destruct sheet as [|h0 data]; [discriminate|].
  rewrite delete_debtor_payments_filter in Es. injection Es as <- <-.
  apply filter_In in Hr as [_ Hk]. apply negb_true_iff in Hk.
  unfold dropped, payer_cell in Hk. rewrite Hp in Hk.
  destruct (nth_error r pi) as [c|] eqn:Ec.
  - assert (En : nth pi r [] = c) by (apply nth_error_nth; exact Ec).
    rewrite En in Mp.
    apply pystr_eqb_neq in Hk. apply Hk. now rewrite Mp.
  - apply nth_error_None in Ec.
    assert (En : nth pi r [] = []) by (apply nth_overflow; exact Ec).
    rewrite En in Mp.
    apply Hne. rewrite <- Hpayer, <- Mp. reflexivity.
Qed.

Lemma deleted_debtor_has_no_row_witness :
  let r1 := [py "Bob"; py "2025-05-01"; py "100.0"; py "cash"] in
  let r2 := [py "Ann"; py "2025-05-02"; py "50.0"; []] in
  let row := mkPayment (py "Bob") (mkdate 2025 5 1) 100 (py "cash") in
  locate_row to_numeric_plain
    (delete_debtor_payments [PAYMENT_GSHEET_COLS; r1; r2] (py "Bob")) row
  = RowIndex (-1).
Proof.
  intros r1 r2 row.
  destruct (deleted_debtor_has_no_row to_numeric_plain
              [PAYMENT_GSHEET_COLS; r1; r2] (py "Bob") row) as [H|H].
  - discriminate.
  - reflexivity.
  - discriminate.
  - exact H.
Defined.

(* ================================================================== *)
(** * The debtor table: add, edit, delete *)

Lemma name_in_iff (n : pystr) (names : list pystr) :
  existsb (fun m => pystr_eqb m n) names = true <-> In n names.
Proof.
  rewrite existsb_exists. split.
  - intros (m & Hin & E). apply pystr_eqb_eq in E. now subst m.
  - intros H. exists n. split; [exact H | apply pystr_eqb_refl].
Qed.

Lemma max_seq_no_ge (first : Customer) (others : list Customer) :
  seq_no first <= max_seq_no first others
  /\ forall c, In c others -> seq_no c <= max_seq_no first others.
Proof.
  unfold max_seq_no.
  assert (G : forall l a, a <= fold_left Z.max l a
                          /\ forall x, In x l -> x <= fold_left Z.max l a).
  { induction l as [|y l IH]; intros a; simpl; [split; [lia|tauto]|].
    destruct (IH (Z.max a y)) as [H1 H2]. split; [lia|].
    intros x [<-|Hx]; [lia|auto]. }
  destruct (G (map seq_no others) (seq_no first)) as [H1 H2].
  split; [exact H1|]. intros c Hc. apply H2. now apply in_map.
Qed.

Lemma loan_of_app_r (cs : list Customer) (c : Customer) (m : pystr) :
  loan_of (cs ++ [c]) m
  = match loan_of cs m with
    | Some q => Some q
    | None => if pystr_eqb (cust_name c) m then Some (cust_loan c) else None
    end.
Proof.
  unfold loan_of. rewrite filter_app. simpl.
  destruct (filter (fun c0 => pystr_eqb (cust_name c0) m) cs);
    [|reflexivity].
  simpl. now destruct (pystr_eqb (cust_name c) m).
Qed.

Lemma loan_of_None (cs : list Customer) (m : pystr) :
  loan_of cs m = None <-> ~ In m (debtor_names cs).
Proof.
  unfold loan_of, debtor_names. induction cs as [|c cs IH]; simpl.
  - tauto.
  - destruct (pystr_eqb (cust_name c) m) eqn:E.
    + apply pystr_eqb_eq in E. split; [discriminate|]. intros H.
      exfalso. apply H. now left.
    + apply pystr_eqb_neq in E. rewrite IH. tauto.
Qed.

(** Adding a debtor.  The request is refused exactly when the name is
    already in the table.  Otherwise the old rows are kept in order, the
    new row comes last with a number above every number in the table,
    names that were pairwise different stay so, the new debtor has the
    loan entered and every other debtor the loan it had. *)
Theorem add_debtor_keeps_names_unique (customers_df : list Customer)
  (new_name : pystr) (new_total : Q) :
  (add_debtor customers_df new_name new_total = None <->
   In new_name (debtor_names customers_df))
  /\ forall customers',
       add_debtor customers_df new_name new_total = Some customers' ->
       (exists new_id,
          customers' = customers_df ++ [mkCustomer new_id new_name new_total]
          /\ forall c, In c customers_df -> seq_no c < new_id)
       /\ (NoDup (debtor_names customers_df) ->
           NoDup (debtor_names customers'))
       /\ loan_of customers' new_name = Some new_total
       /\ forall m, m <> new_name ->
                    loan_of customers' m = loan_of customers_df m.
Proof.
  unfold add_debtor.
  destruct (existsb (fun n => pystr_eqb n new_name)
              (debtor_names customers_df)) eqn:E.
  - apply name_in_iff in E. split; [tauto|]. discriminate.
  - assert (Hnot : ~ In new_name (debtor_names customers_df)).
    { intros H. apply name_in_iff in H. congruence. }
    split; [split; [discriminate | contradiction]|].
    intros customers' H. injection H as <-.
    split; [|split; [|split]].
    + eexists. split; [reflexivity|]. intros c Hc.
      destruct customers_df as [|c0 cs]; [destruct Hc|].
      destruct (max_seq_no_ge c0 cs) as [H1 H2].
      destruct Hc as [<-|Hc]; [lia|]. specialize (H2 c Hc). lia.
    + intros Hnd. unfold debtor_names. rewrite map_app. simpl.
      apply NoDup_app; [exact Hnd | repeat constructor; intros [] | ].
      intros a Ha [<-|[]]. contradiction.
    + rewrite loan_of_app_r. simpl. rewrite pystr_eqb_refl.
      now rewrite (proj2 (loan_of_None customers_df new_name) Hnot).
    + intros m Hm. rewrite loan_of_app_r. simpl.
      destruct (loan_of customers_df m); [reflexivity|].
      assert (F : pystr_eqb new_name m = false)
        by (apply pystr_eqb_neq; congruence).
      now rewrite F.
Qed.

Lemma add_debtor_keeps_names_unique_witness :
  let cs := [mkCustomer 1 (py "Ann") 5000; mkCustomer 2 (py "Bob") 8000] in
  add_debtor cs (py "Bob") 100 = None
  /\ loan_of (cs ++ [mkCustomer 3 (py "Cid") 700]) (py "Ann") = Some 5000%Q.
Proof.
  intros cs.
  destruct (add_debtor_keeps_names_unique cs (py "Bob") 100) as [H _].
  destruct (add_debtor_keeps_names_unique cs (py "Cid") 700) as [_ H'].
  split.
  - apply H. right. left. reflexivity.
  - destruct (H' _ eq_refl) as (_ & _ & _ & Ho).
    refine (eq_trans (Ho (py "Ann") _) eq_refl). discriminate.
Defined.



(** Deleting a debtor removes every row with that name and keeps the
    other rows in order: the name is then unknown, every other debtor
    has the loan it had, and deleting a debtor that was just added gives
    back the table as it was before. *)
Theorem delete_debtor_row_removes_name (customers_df : list Customer)
  (name : pystr) :
  let customers' := delete_debtor_row customers_df name in
  ~ In name (debtor_names customers')
  /\ loan_of customers' name = None
  /\ (forall m, m <> name -> loan_of customers' m = loan_of customers_df m)
  /\ (forall q added, add_debtor customers_df name q = Some added ->
                      delete_debtor_row added name = customers_df).
Proof.
  cbv zeta.
  assert (Hnot : ~ In name (debtor_names (delete_debtor_row customers_df name))).
  { unfold debtor_names, delete_debtor_row. intros H.
    apply in_map_iff in H as (c & Ec & Hc).
    apply filter_In in Hc as [_ Hc]. apply negb_true_iff in Hc.
    apply pystr_eqb_neq in Hc. contradiction. }
  split; [exact Hnot|]. split; [now apply loan_of_None|]. split.
  - intros m Hm. unfold loan_of, delete_debtor_row.
    induction customers_df as [|c cs IH]; simpl; [reflexivity|].
    destruct (pystr_eqb (cust_name c) name) eqn:E; simpl.
    + apply pystr_eqb_eq in E.
      assert (F : pystr_eqb (cust_name c) m = false)
        by (apply pystr_eqb_neq; congruence).
      rewrite F. apply IH.
      intros H. apply Hnot. unfold debtor_names, delete_debtor_row in *.
      simpl. apply pystr_eqb_eq in E. now rewrite E.
    + destruct (pystr_eqb (cust_name c) m); [reflexivity|]. apply IH.
      intros H. apply Hnot. unfold debtor_names, delete_debtor_row in *.
      simpl. rewrite E. simpl. now right.
  - intros q added Hadd. unfold add_debtor in Hadd.
    destruct (existsb (fun n => pystr_eqb n name) (debtor_names customers_df))
      eqn:E; [discriminate|].
    injection Hadd as <-. unfold delete_debtor_row.
    rewrite filter_app. simpl. rewrite pystr_eqb_refl. simpl.
    rewrite app_nil_r. apply filter_all. intros c Hc.
    apply negb_true_iff, pystr_eqb_neq. intros Ec.
    assert (In name (debtor_names customers_df))
      by (rewrite <- Ec; apply in_map; exact Hc).
    apply name_in_iff in H. congruence.
Qed.

Lemma delete_debtor_row_removes_name_witness :
  let cs := [mkCustomer 1 (py "Ann") 5000; mkCustomer 2 (py "Bob") 8000] in
  delete_debtor_row (cs ++ [mkCustomer 3 (py "Cid") 700]) (py "Cid") = cs
  /\ loan_of (delete_debtor_row cs (py "Bob")) (py "Ann")
     = loan_of cs (py "Ann").
Proof.
  intros cs.
  destruct (delete_debtor_row_removes_name cs (py "Cid")) as (_ & _ & _ & H).
  destruct (delete_debtor_row_removes_name cs (py "Bob")) as (_ & _ & H' & _).
  split.
  - exact (H 700%Q _ eq_refl).
  - apply H'. discriminate.
Defined.

(* ================================================================== *)
(** * A debtor without payments *)


